(** * Aye: adaptive split/retry executor and length-prefixed frame transport

    A shallow embedding of [Retry.py], [Retry2.py] and [Arrow_client.py],
    and the properties of the split / retry / merge recursion and of the
    frame reader. *)

From Stdlib Require Import ZArith Ascii String List Lia.
From Stdlib.Strings Require Import Byte.
From Stdlib Require Import DecimalString.
From stdpp Require Import base option list gmap strings fin_maps.

Local Open Scope Z_scope.

(** ** Python text: [str.lower] and the [in] substring test

    A character is a code point in 0..255.  On that range [str.lower]
    moves [A-Z] and the upper-case Latin-1 letters (0xC0..0xDE except the
    multiplication sign 0xD7) up by 32 and leaves everything else. *)

Module PyStr.

Definition lower_ascii (c : ascii) : ascii :=
  let n := N_of_ascii c in
  if ((65 <=? n) && (n <=? 90))%N then ascii_of_N (n + 32)
  else if ((192 <=? n) && (n <=? 222) && negb (n =? 215))%N
       then ascii_of_N (n + 32)
  else c.

Fixpoint lower (s : string) : string :=
  match s with
  | EmptyString => EmptyString
  | String c s' => String (lower_ascii c) (lower s')
  end.

(** [starts_with p s]: [s] begins with [p]. *)
Fixpoint starts_with (p s : string) : bool :=
  match p, s with
  | EmptyString, _ => true
  | String _ _, EmptyString => false
  | String a p', String b s' => if Ascii.eqb a b then starts_with p' s' else false
  end.

(** [contains p s] is Python's [p in s]. *)
Fixpoint contains (p s : string) : bool :=
  starts_with p s ||
  match s with
  | EmptyString => false
  | String _ s' => contains p s'
  end.

End PyStr.

(** ** Python values, exceptions, keyword arguments

    Values are immutable: a wrapped function reads the arguments it is
    given and does not change them in place. *)

#[local] Set Warnings "-register-all".

Inductive value : Type :=
  | VNone
  | VInt (z : Z)
  | VStr (s : string)
  | VList (l : list value)
  | VDict (d : list (string * value)).

(** An exception, as caught by [except Exception]: its class and what
    [str(e)] yields. *)
Inductive exn_class := ValueError | ConnectionError | TypeError | OtherError (name : string).

Record exn := Exn { exn_cls : exn_class; exn_str : string }.

(** What a call does: return a value or raise. *)
Inductive outcome : Type :=
  | Return (v : value)
  | Raise (e : exn).

Abbreviation kwargs_t := (gmap string value).

(** [isinstance(v, list)] together with the list itself. *)
Definition as_list (v : value) : option (list value) :=
  match v with VList l => Some l | _ => None end.

(** [type(v).__name__], as the interpreter prints it in a [TypeError]. *)
Definition type_name (v : value) : string :=
  match v with
  | VNone => "NoneType"
  | VInt _ => "int"
  | VStr _ => "str"
  | VList _ => "list"
  | VDict _ => "dict"
  end.

(** The text of the [TypeError] a list or a string raises when asked to
    concatenate something else, and of the one [+] raises when neither
    operand knows how to add the other. *)
Definition concat_error (kind other : string) : exn :=
  Exn TypeError
    (String.append "can only concatenate "
       (String.append kind
          (String.append " (not "
             (String "034"
                (String.append other
                   (String "034" (String.append ") to " kind))))))).

Definition operand_error (a b : value) : exn :=
  Exn TypeError
    (String.append "unsupported operand type(s) for +: '"
       (String.append (type_name a)
          (String.append "' and '" (String.append (type_name b) "'")))).

(** [result1 + result2].  Lists and strings concatenate with their own
    kind, integers add, anything else is a [TypeError]. *)
Definition py_add (a b : value) : outcome :=
  match a, b with
  | VList x, VList y => Return (VList (x ++ y))
  | VList _, _ => Raise (concat_error "list" (type_name b))
  | VStr x, VStr y => Return (VStr (x ++ y))
  | VStr _, _ => Raise (concat_error "str" (type_name b))
  | VInt x, VInt y => Return (VInt (x + y))
  | _, _ => Raise (operand_error a b)
  end.

(** ["too big" in str(e).lower()] *)
Definition marker : string := "too big".

Definition oversized (e : exn) : bool :=
  PyStr.contains marker (PyStr.lower (exn_str e)).

(** [items[:mid]] and [items[mid:]] with [mid = len(items) // 2]. *)
Definition mid (items : list value) : nat := (length items / 2)%nat.

Definition halves (items : list value) : list value * list value :=
  (take (mid items) items, drop (mid items) items).

(** The two [kwargs.copy()] snapshots with [chunk_dim] overwritten. *)
Definition split_kwargs (kwargs : kwargs_t) (chunk_dim : string)
    (items : list value) : kwargs_t * kwargs_t :=
  (<[chunk_dim := VList (fst (halves items))]> kwargs,
   <[chunk_dim := VList (snd (halves items))]> kwargs).

(** ** What the executor leaves behind

    The diagnostic lines it prints and its back-off pauses, in the order
    they happen.  [EvCall] is a ghost entry marking each invocation of the
    wrapped function with what it was given and how it ended. *)

Inductive event : Type :=
  | EvCall (args : list value) (kwargs : kwargs_t) (res : outcome)
  | EvSplit (chunk_dim : string) (items left right : list value)
  | EvRetry (n max_retries : Z) (e : exn)
  | EvSleep (secs : Z)
  | EvGiveUp.

(** One finished run: the outcome, the wrapped function's state afterwards
    and the events emitted, oldest first. *)
Record run (S : Type) := Run { out : outcome; st : S; evs : list event }.
Arguments Run {S} _ _ _.
Arguments out {S} _.
Arguments st {S} _.
Arguments evs {S} _.

Definition emit {S} (pre : list event) (r : run S) : run S :=
  Run (out r) (st r) (pre ++ evs r).

(** The two recursive calls of a split and the merge of their results:
    [res1 = ...; res2 = ...; return res1 + res2].  The left branch runs
    first, from the state [s1] the failed call left; an exception raised
    by a branch, or by [+], leaves the function at once. *)
Definition split_then_merge {S} (pre : list event)
    (left right : S -> option (run S)) (s1 : S) : option (run S) :=
  match left s1 with
  | None => None
  | Some r1 =>
    match out r1 with
    | Raise _ => Some (emit pre r1)
    | Return res1 =>
      match right (st r1) with
      | None => None
      | Some r2 =>
        match out r2 with
        | Raise _ => Some (emit (pre ++ evs r1) r2)
        | Return res2 =>
            Some (Run (py_add res1 res2) (st r2) (pre ++ evs r1 ++ evs r2))
        end
      end
    end
  end.

(** ** [Retry2.py] *)

Module Retry2.

(** The guard of the loop body, lines 12-13, giving [items] when it holds. *)
Definition splittable (kwargs : kwargs_t) (chunk_dim : string) (e : exn)
    : option (list value) :=
  match kwargs !! chunk_dim with
  | Some (VList items) =>
      if (1 <? length items)%nat && oversized e then Some items else None
  | _ => None
  end.

(** [for chunk_dim in chunk_dims: if ...: ... return], lines 11-25: the
    dimension the loop body runs for, if any. *)
Fixpoint find_split (chunk_dims : list string) (kwargs : kwargs_t) (e : exn)
    : option (string * list value) :=
  match chunk_dims with
  | [] => None
  | chunk_dim :: rest =>
      match splittable kwargs chunk_dim e with
      | Some items => Some (chunk_dim, items)
      | None => find_split rest kwargs e
      end
  end.

Section Exec.
Context {S : Type}.
(** [connection.call_q(func_name, *args, **kwargs)] on a connection in
    state [S]. *)
Variable call_q : S -> string -> list value -> kwargs_t -> outcome * S.

(** [_attempt_q_call]; [None] only when [fuel] recursive calls were not
    enough.  The depth of the interpreter's stack is not limited here. *)
Fixpoint _attempt_q_call (fuel : nat) (func_name : string)
    (args : list value) (kwargs : kwargs_t) (chunk_dims : list string)
    (max_retries retries : Z) (s : S) : option (run S) :=
  match fuel with
  | O => None
  | Datatypes.S fuel =>
    let '(res, s1) := call_q s func_name args kwargs in
    let called := EvCall args kwargs res in
    match res with
    | Return v => Some (Run (Return v) s1 [called])
    | Raise e =>
      match find_split chunk_dims kwargs e with
      | Some (chunk_dim, items) =>
        let '(kwargs1, kwargs2) := split_kwargs kwargs chunk_dim items in
        let pre := [called; EvSplit chunk_dim items (halves items).1 (halves items).2] in
        split_then_merge pre
          (_attempt_q_call fuel func_name args kwargs1 chunk_dims max_retries retries)
          (_attempt_q_call fuel func_name args kwargs2 chunk_dims max_retries retries)
          s1
      | None =>
        if retries <? max_retries then
          option_map (emit [called; EvRetry (retries + 1) max_retries e; EvSleep 1])
            (_attempt_q_call fuel func_name args kwargs chunk_dims max_retries (retries + 1) s1)
        else Some (Run (Raise e) s1 [called; EvGiveUp])
      end
    end
  end.
End Exec.

End Retry2.

(** ** [Retry.py] *)

Module Retry.

(** The test of line 28, giving [items] when it holds. *)
Definition splittable (kwargs : kwargs_t) (chunk_dim : string) (e : exn)
    : option (list value) :=
  if oversized e then
    match kwargs !! chunk_dim with
    | Some (VList items) => if (1 <? length items)%nat then Some items else None
    | _ => None
    end
  else None.

Section Exec.
Context {S : Type}.
(** The wrapped function, called on line 24 with the positional and
    keyword arguments, and its state. *)
Variable func : S -> list value -> kwargs_t -> outcome * S.

Fixpoint _attempt_query (fuel : nat) (args : list value) (kwargs : kwargs_t)
    (chunk_dim : string) (max_retries retries : Z) (s : S) : option (run S) :=
  match fuel with
  | O => None
  | Datatypes.S fuel =>
    let '(res, s1) := func s args kwargs in
    let called := EvCall args kwargs res in
    match res with
    | Return v => Some (Run (Return v) s1 [called])
    | Raise e =>
      match splittable kwargs chunk_dim e with
      | Some items =>
        let '(kwargs1, kwargs2) := split_kwargs kwargs chunk_dim items in
        let pre := [called; EvSplit chunk_dim items (halves items).1 (halves items).2] in
        split_then_merge pre
          (_attempt_query fuel args kwargs1 chunk_dim max_retries retries)
          (_attempt_query fuel args kwargs2 chunk_dim max_retries retries)
          s1
      | None =>
        if retries <? max_retries then
          option_map (emit [called; EvRetry (retries + 1) max_retries e; EvSleep 1])
            (_attempt_query fuel args kwargs chunk_dim max_retries (retries + 1) s1)
        else Some (Run (Raise e) s1 [called; EvGiveUp])
      end
    end
  end.

(** [retry_and_subdivide(chunk_dim, max_retries)(func)]: the wrapper
    starts at [retries=0]. *)
Definition wrapper (fuel : nat) (chunk_dim : string) (max_retries : Z)
    (args : list value) (kwargs : kwargs_t) (s : S) : option (run S) :=
  _attempt_query fuel args kwargs chunk_dim max_retries 0 s.
End Exec.

(** [kwargs.get(key)], [None] when absent. *)
Definition kwargs_get (kwargs : kwargs_t) (key : string) : value :=
  default VNone (kwargs !! key).

(** The undecorated [run_query], lines 53-70.  Its state is what it has
    printed: one entry per "Executing query" line holding the five
    interpolated values. *)
Definition run_query_body (printed : list (list value)) (args : list value)
    (kwargs : kwargs_t) : outcome * list (list value) :=
  let symbols := default (VList []) (kwargs !! "symbols") in
  let start_date := kwargs_get kwargs "start_date" in
  let end_date := kwargs_get kwargs "end_date" in
  let start_time := kwargs_get kwargs "start_time" in
  let end_time := kwargs_get kwargs "end_time" in
  let too_big :=
    match symbols with VList l => (3 <? length l)%nat | _ => false end in
  if too_big then (Raise (Exn ValueError "Query too big"), printed)
  else
    let row s := VDict [("symbol", s); ("data", VStr "dummy data")] in
    (Return (VList (map row (match symbols with VList l => l | _ => [symbols] end))),
     printed ++ [[symbols; start_date; end_date; start_time; end_time]]).

(** [run_query] as decorated on line 52. *)
Definition run_query (fuel : nat) :=
  wrapper run_query_body fuel "symbols" 2.

(** [run_query] seen through the calling convention of [Retry2.py]. *)
Definition run_query_conn (printed : list (list value)) (func_name : string)
    (args : list value) (kwargs : kwargs_t) : outcome * list (list value) :=
  run_query_body printed args kwargs.

(** The request of the example usage, lines 75-84. *)
Definition symbols_list : list value :=
  map VStr ["AAPL"; "GOOG"; "MSFT"; "AMZN"; "FB"; "TSLA"].

Definition example_kwargs : kwargs_t :=
  <["symbols" := VList symbols_list]>
    (<["start_date" := VStr "2025-01-01"]>
       (<["end_date" := VStr "2025-01-31"]>
          (<["start_time" := VStr "09:30"]>
             {["end_time" := VStr "16:00"]}))).

End Retry.

(** ** [Arrow_client.py]: the frame read of [fetch_arrow_table] *)

Module ArrowClient.

(** The receiving side of the connected socket: the deliveries still to
    come, oldest first; when none is left the peer has closed. *)
Abbreviation socket := (list (list byte)).

(** Result of one [s.recv(bufsize)]. *)
Inductive received : Type :=
  | Chunk (chunk : list byte) (rest : socket)
  | RecvError (e : exn).

(** [s.recv(bufsize)]: at most [bufsize] bytes of the oldest delivery, the
    empty bytes once the peer has closed; a negative size is refused. *)
Definition recv (bufsize : Z) (s : socket) : received :=
  if bufsize <? 0 then RecvError (Exn ValueError "negative buffersize in recv")
  else
    match s with
    | [] => Chunk [] []
    | d :: rest =>
        let k := Z.to_nat bufsize in
        if (length d <=? k)%nat then Chunk d rest
        else Chunk (take k d) (drop k d :: rest)
    end.

Definition header_closed : exn :=
  Exn ConnectionError "Socket closed before header received".
Definition data_closed : exn :=
  Exn ConnectionError "Socket closed before full data received".

(** What a loop hands on: the bytes gathered or the exception, and the
    socket as it is left. *)
Inductive read_result : Type :=
  | Bytes (data : list byte) (rest : socket)
  | Failed (e : exn) (rest : socket).

(** Lines 25-29: [while len(header) < 8]. *)
Fixpoint read_header (fuel : nat) (header : list byte) (s : socket)
    : option read_result :=
  if Z.of_nat (length header) <? 8 then
    match fuel with
    | O => None
    | S fuel =>
        match recv (8 - Z.of_nat (length header)) s with
        | RecvError e => Some (Failed e s)
        | Chunk [] rest => Some (Failed header_closed rest)
        | Chunk chunk rest => read_header fuel (header ++ chunk) rest
        end
    end
  else Some (Bytes header s).

(** [struct.unpack("!Q", header)[0]]: eight bytes, most significant first. *)
Definition be_value (bs : list byte) : Z :=
  fold_left (fun acc b => acc * 256 + Z.of_N (Byte.to_N b)) bs 0.

Definition unpack_Q (header : list byte) : option Z :=
  if (length header =? 8)%nat then Some (be_value header) else None.

(** Lines 35-41: [while bytes_remaining > 0]. *)
Fixpoint read_payload (fuel : nat) (buffer_size : Z) (data : list byte)
    (bytes_remaining : Z) (s : socket) : option read_result :=
  if 0 <? bytes_remaining then
    match fuel with
    | O => None
    | S fuel =>
        let recv_size := Z.min buffer_size bytes_remaining in
        match recv recv_size s with
        | RecvError e => Some (Failed e s)
        | Chunk [] rest => Some (Failed data_closed rest)
        | Chunk chunk rest =>
            read_payload fuel buffer_size (data ++ chunk)
              (bytes_remaining - Z.of_nat (length chunk)) rest
        end
    end
  else Some (Bytes data s).

(** Lines 23-41: header, length, payload.  What follows in the source
    hands [data] to pyarrow. *)
Definition fetch_frame (fuel : nat) (buffer_size : Z) (s : socket)
    : option read_result :=
  match read_header fuel [] s with
  | None => None
  | Some (Failed e rest) => Some (Failed e rest)
  | Some (Bytes header rest) =>
      match unpack_Q header with
      | None => Some (Failed (Exn (OtherError "struct.error") "unpack requires a buffer of 8 bytes") rest)
      | Some total_length => read_payload fuel buffer_size [] total_length rest
      end
  end.

(** The header the store writes for a payload of [L] bytes. *)
Definition byte_of_Z (z : Z) : byte :=
  default Byte.x00 (Byte.of_N (Z.to_N (z mod 256))).

Fixpoint be_bytes (n : nat) (L : Z) : list byte :=
  match n with
  | O => []
  | S n => be_bytes n (L / 256) ++ [byte_of_Z L]
  end.

Definition pack_Q (L : Z) : list byte := be_bytes 8 L.

End ArrowClient.

(** ** Reading a run's events *)

Definition is_call (ev : event) : bool :=
  match ev with EvCall _ _ _ => true | _ => false end.
Definition is_failed_call (ev : event) : bool :=
  match ev with EvCall _ _ (Raise _) => true | _ => false end.
Definition is_split (ev : event) : bool :=
  match ev with EvSplit _ _ _ _ => true | _ => false end.
Definition is_split_on (d : string) (ev : event) : bool :=
  match ev with EvSplit d' _ _ _ => bool_decide (d' = d) | _ => false end.
Definition is_retry (ev : event) : bool :=
  match ev with EvRetry _ _ _ => true | _ => false end.

Definition count (p : event -> bool) (evs : list event) : nat :=
  length (List.filter p evs).

(** The invocations of the wrapped function, oldest first. *)
Definition calls (evs : list event) : list (list value * kwargs_t * outcome) :=
  omap (fun ev => match ev with EvCall a k r => Some (a, k, r) | _ => None end) evs.

(** The counter values announced by the retry lines. *)
Definition retry_numbers (evs : list event) : list Z :=
  omap (fun ev => match ev with EvRetry n _ _ => Some n | _ => None end) evs.

(** ** Wrapped functions used as test inputs *)

(** A connection served by the frame transport on a socket whose peer has
    closed: each call ends in the error [fetch_frame] raises there.  The
    state counts the calls. *)
Definition closed_conn (n : nat) (func_name : string) (args : list value)
    (kwargs : kwargs_t) : outcome * nat :=
  match ArrowClient.fetch_frame 8 16384 [] with
  | Some (ArrowClient.Failed e _) => (Raise e, Datatypes.S n)
  | _ => (Return (VList []), Datatypes.S n)
  end.

(** A store that times out on its first and third call, rejects its second
    call as too big, and answers from the fourth call on.  The state counts
    the calls. *)
Definition timeout_error : exn := Exn (OtherError "TimeoutError") "timed out".

Definition moody_conn (n : nat) (func_name : string) (args : list value)
    (kwargs : kwargs_t) : outcome * nat :=
  (match n with
   | 0%nat | 2%nat => Raise timeout_error
   | 1%nat => Raise (Exn ValueError "Query too big")
   | _ => Return (VList (default [] (kwargs !! "symbols" ≫= as_list)))
   end, Datatypes.S n).

Definition pair_kwargs : kwargs_t :=
  {["symbols" := VList [VStr "AAPL"; VStr "GOOG"]]}.



(** ** Retry chains

    [fails_then_returns k s v s']: from state [s] the call with these
    arguments fails [k] times in a row with errors that lead to no split,
    and then returns [v], leaving state [s']. *)
Fixpoint fails_then_returns {S : Type}
    (call_q : S -> string -> list value -> kwargs_t -> outcome * S)
    (name : string) (args : list value) (kwargs : kwargs_t) (dims : list string)
    (k : nat) (s : S) (v : value) (s' : S) : Prop :=
  match k with
  | O => call_q s name args kwargs = (Return v, s')
  | Datatypes.S k =>
      exists e s1,
        call_q s name args kwargs = (Raise e, s1) /\
        Retry2.find_split dims kwargs e = None /\
        fails_then_returns call_q name args kwargs dims k s1 v s'
  end.

(** A run that ends after a single call, with no retry and no split. *)
Definition propagates_immediately {S : Type} (res : run S) : Prop :=
  count is_call (evs res) = 1%nat /\
  count is_retry (evs res) = 0%nat /\
  count is_split (evs res) = 0%nat.

(** The errors the frame transport raises when the peer closes early. *)
Definition transport_fatal (e : exn) : Prop :=
  e = ArrowClient.header_closed \/ e = ArrowClient.data_closed.

(** ** The measure of the recursion

    The lengths of the sequences held by the chunk dimensions, summed over
    the declared dimensions, plus the retries still allowed. *)

Definition dim_len (kwargs : kwargs_t) (d : string) : nat :=
  match kwargs !! d with Some (VList l) => length l | _ => 0%nat end.

Definition weight (chunk_dims : list string) (kwargs : kwargs_t) : nat :=
  sum_list (map (dim_len kwargs) chunk_dims).

Definition fuel_bound (chunk_dims : list string) (kwargs : kwargs_t)
    (max_retries retries : Z) : nat :=
  Datatypes.S (weight chunk_dims kwargs + Z.to_nat (max_retries - retries)).

(** ** The split rule in the specification's words

    Stated independently of the code, to be compared with [oversized] and
    [Retry2.find_split]. *)



(** ** [Query_builder.py] *)

Module QueryBuilder.

(** The objects [qrepr] is given.  [QOther] stands for an object rendered
    through [str()], a float or an instance of a type with no case of its
    own, and carries that text; [QTime] is a [datetime.time] with its
    fields in the ranges the class allows.  Dates, datetimes, timedeltas,
    NumPy and Polars objects are left out. *)
Inductive qobj : Type :=
  | QSymbol (value : string)
  | QBool (b : bool)
  | QStr (s : string)
  | QInt (z : Z)
  | QList (items : list qobj)
  | QTuple (items : list qobj)
  | QDict (d : list (qobj * qobj))
  | QTime (hour minute second microsecond : N)
  | QNone
  | QOther (text : string).

(** [sep.join(ls)] *)
Fixpoint join (sep : string) (ls : list string) : string :=
  match ls with
  | [] => EmptyString
  | [x] => x
  | x :: rest => String.append x (String.append sep (join sep rest))
  end.

(** The double quote and the backslash. *)
Definition dquote : ascii := "034"%char.
Definition backslash : ascii := "092"%char.

(** [obj.replace(...)] of the string case: a backslash is put before every
    double quote. *)
Fixpoint escape_quotes (s : string) : string :=
  match s with
  | EmptyString => EmptyString
  | String c s' =>
      if Ascii.eqb c dquote then String backslash (String dquote (escape_quotes s'))
      else String c (escape_quotes s')
  end.

(** [str(n)] for an integer. *)
Definition str_int (z : Z) : string := NilZero.string_of_int (Z.to_int z).

(** [n] written with [w] decimal digits, zeros in front: what [%H], [%M],
    [%S] (two digits) and [%f] (six) give for the fields of a time. *)
Fixpoint digits (w : nat) (n : N) : string :=
  match w with
  | O => EmptyString
  | Datatypes.S w' =>
      String.append (digits w' (n / 10)%N)
        (String (ascii_of_N (48 + n mod 10)%N) EmptyString)
  end.

(** [s[:-n]] *)
Definition drop_last (n : nat) (s : string) : string :=
  let l := list_ascii_of_string s in
  string_of_list_ascii (take (length l - n) l).

(** [obj.strftime("%H:%M:%S.%f")] *)
Definition strftime_time (hour minute second microsecond : N) : string :=
  String.append (digits 2 hour)
    (String ":" (String.append (digits 2 minute)
       (String ":" (String.append (digits 2 second)
          (String "." (digits 6 microsecond)))))).

Definition quoted (s : string) : string :=
  String dquote (String.append s (String dquote EmptyString)).

(** [qrepr], lines 99-165. *)
Fixpoint qrepr (obj : qobj) : string :=
  match obj with
  | QSymbol value => String "`" value
  | QBool b => if b then "1b" else "0b"
  | QStr s => quoted (escape_quotes s)
  | QInt z => str_int z
  | QList items | QTuple items => join " " (map qrepr items)
  | QDict d =>
      String.append (join " " (map (fun kv => match kv with (k, _) => qrepr k end) d))
        (String "!" (join " " (map (fun kv => match kv with (_, v) => qrepr v end) d)))
  | QTime hour minute second microsecond =>
      quoted (drop_last 3 (strftime_time hour minute second microsecond))
  | QNone => "0N"
  | QOther text => text
  end.

(** Reading an escaped text back: the backslash before a double quote is
    dropped. *)
Fixpoint unescape_quotes (s : string) : string :=
  match s with
  | EmptyString => EmptyString
  | String c s' =>
      match s' with
      | String c' s'' =>
          if Ascii.eqb c backslash && Ascii.eqb c' dquote
          then String dquote (unescape_quotes s'')
          else String c (unescape_quotes s')
      | EmptyString => String c EmptyString
      end
  end.

(** The double quotes in a text. *)
Fixpoint count_quotes (s : string) : nat :=
  match s with
  | EmptyString => 0
  | String c s' => ((if Ascii.eqb c dquote then 1 else 0) + count_quotes s')%nat
  end.

End QueryBuilder.

(** ** [Retry2.py]: the client and the dummy connection *)

(** [for x in v]: the elements of a list, the characters of a string, the
    keys of a dict; [None] when [v] is not iterable. *)
Definition py_iter (v : value) : option (list value) :=
  match v with
  | VList l => Some l
  | VStr s => Some (map (fun c => VStr (String c EmptyString)) (list_ascii_of_string s))
  | VDict d => Some (map (fun kv => VStr kv.1) d)
  | VNone | VInt _ => None
  end.

Module DummyKdbConnection.

(** [key in kwargs and isinstance(kwargs[key], list) and len(kwargs[key]) > 3] *)
Definition too_long (kwargs : kwargs_t) (key : string) : bool :=
  match kwargs !! key with
  | Some (VList l) => (3 <? length l)%nat
  | _ => false
  end.

Definition checked_keys : list string := ["symbols"; "date_range"; "time_range"].

(** Binding the call [call_q(func_name, *args, **kwargs)] to the
    parameters [(self, func_name, *args, **kwargs)]: a keyword named like
    one of the two parameters already filled is refused.  When both are
    there, the message names the one written first in the call. *)
Definition bound_twice (self_first : bool) (kwargs : kwargs_t) : option string :=
  match kwargs !! "self", kwargs !! "func_name" with
  | Some _, Some _ => Some (if self_first then "self" else "func_name")
  | Some _, None => Some "self"
  | None, Some _ => Some "func_name"
  | None, None => None
  end.

Definition binding_error (parameter : string) : exn :=
  Exn TypeError
    (String.append "DummyKdbConnection.call_q() got multiple values for argument '"
       (String.append parameter "'")).

Section CallQ.
(** The text an f-string puts for [{sym}]: [str(sym)], a builtin. *)
Variable fmt : value -> string.
(** Whether [self] comes before [func_name] among the keywords of a call;
    the map of keyword arguments does not keep their order. *)
Variable self_first : kwargs_t -> bool.

Definition result_row (func_name : string) (sym : value) : value :=
  VDict [("result",
          VStr (String.append func_name (String.append " result for " (fmt sym))))].

(** [call_q], lines 66-76, as called on line 7.  The state is what has
    been printed: one entry per "Executing" line holding the three
    interpolated values. *)
Definition call_q (printed : list (string * list value * kwargs_t))
    (func_name : string) (args : list value) (kwargs : kwargs_t)
    : outcome * list (string * list value * kwargs_t) :=
  match bound_twice (self_first kwargs) kwargs with
  | Some parameter => (Raise (binding_error parameter), printed)
  | None =>
    if existsb (too_long kwargs) checked_keys
    then (Raise (Exn ValueError "Query too big"), printed)
    else
      let printed' := printed ++ [(func_name, args, kwargs)] in
      match kwargs !! "symbols" with
      | Some v =>
          match py_iter v with
          | Some syms => (Return (VList (map (result_row func_name) syms)), printed')
          | None =>
              (Raise (Exn TypeError
                        (String.append "'"
                           (String.append (type_name v) "' object is not iterable"))),
               printed')
          end
      | None =>
          (Return (VList [VDict [("result", VStr (String.append func_name " result"))]]),
           printed')
      end
  end.
End CallQ.

End DummyKdbConnection.

Module QClient.

(** One entry of [config]: a dict that may hold ["chunk_dims"] and
    ["max_retries"]. *)
Record entry := Entry {
  cfg_chunk_dims : option (list string);
  cfg_max_retries : option Z
}.

(** [__getattr__(func_name)], lines 54-62: the callable [q_func]. *)
Definition __getattr__ {S : Type}
    (connection : S -> string -> list value -> kwargs_t -> outcome * S)
    (config : gmap string entry) (func_name : string)
    : nat -> list value -> kwargs_t -> S -> option (run S) :=
  let cfg := default (Entry None None) (config !! func_name) in
  let chunk_dims := default [] (cfg_chunk_dims cfg) in
  let max_retries := default 3 (cfg_max_retries cfg) in
  fun fuel args kwargs s =>
    Retry2._attempt_q_call connection fuel func_name args kwargs
      chunk_dims max_retries 0 s.

(** The configuration of the example usage, lines 81-97. *)
Definition q_config : gmap string entry :=
  {[ "getDataByDate" := Entry (Some ["symbols"]) (Some 3);
     "getDataByDateRange" := Entry (Some ["symbols"; "date_range"]) (Some 2);
     "getDataByDateTimeRange" :=
       Entry (Some ["symbols"; "date_range"; "time_range"]) (Some 2) ]}.

End QClient.

(** [run_query]: what it is asked for, a list, a single value or nothing. *)
Definition requested (kwargs : kwargs_t) : list value :=
  match kwargs !! "symbols" with
  | Some (VList l) => l
  | Some v => [v]
  | None => []
  end.

Definition query_row (s : value) : value :=
  VDict [("symbol", s); ("data", VStr "dummy data")].

(** An f-string conversion that is right on strings, for use in examples. *)
Definition fmt_str (v : value) : string :=
  match v with VStr s => s | _ => EmptyString end.

(** ** Accounting of a run *)

Definition is_giveup (ev : event) : bool :=
  match ev with EvGiveUp => true | _ => false end.

(** Seconds spent in [time.sleep]. *)
Fixpoint slept (evs : list event) : Z :=
  match evs with
  | [] => 0
  | EvSleep secs :: rest => secs + slept rest
  | _ :: rest => slept rest
  end.

(** The chunks of dimension [d] carried by the calls that returned, oldest
    first. *)
Definition answered_chunks (d : string) (evs : list event) : list (list value) :=
  omap (fun ev => match ev with
                  | EvCall _ k (Return _) => k !! d ≫= as_list
                  | _ => None
                  end) evs.

(** Every failed call is followed up by exactly one of a split, a retry
    or the give-up; the run gives up at most once; each retry sleeps one
    second; and the calls are the first one, one per retry and at most
    two per split. *)
Definition balanced (evs : list event) : Prop :=
  count is_failed_call evs
    = (count is_retry evs + count is_split evs + count is_giveup evs)%nat /\
  (count is_giveup evs <= 1)%nat /\
  slept evs = Z.of_nat (count is_retry evs) /\
  (count is_call evs <= 1 + count is_retry evs + 2 * count is_split evs)%nat.

(** What holds besides when the run returned: it never gave up, and both
    branches of every split were run. *)
Definition complete (evs : list event) : Prop :=
  count is_giveup evs = 0%nat /\
  count is_call evs = (1 + count is_retry evs + 2 * count is_split evs)%nat.

(** ** Where a raised error comes from *)

(** The run ends on a failed call and the give-up, and [e] is what that
    call raised. *)
Definition gave_up_on {S : Type} (res : run S) (e : exn) : Prop :=
  exists before a k, evs res = before ++ [EvCall a k (Raise e); EvGiveUp].

(** The run ends with the two branches of one of its splits, run by
    [exec] one after the other; both returned, and [e] is what adding
    their results raised. *)
Definition merge_failed {S : Type}
    (exec : nat -> kwargs_t -> Z -> S -> option (run S))
    (res : run S) (e : exn) : Prop :=
  exists fuel kwargs d items r s1 r1 r2 v1 v2 before,
    exec fuel (split_kwargs kwargs d items).1 r s1 = Some r1 /\
    out r1 = Return v1 /\
    exec fuel (split_kwargs kwargs d items).2 r (st r1) = Some r2 /\
    out r2 = Return v2 /\
    py_add v1 v2 = Raise e /\
    evs res = before ++ evs r1 ++ evs r2 /\
    st res = st r2.

(** A store that refuses more than one symbol at a time and answers
    [None].  The state counts the calls. *)
Definition silent_conn (n : nat) (func_name : string) (args : list value)
    (kwargs : kwargs_t) : outcome * nat :=
  (match kwargs !! "symbols" with
   | Some (VList (_ :: _ :: _)) => Raise (Exn ValueError "Query too big")
   | _ => Return VNone
   end, Datatypes.S n).

(** ** Basic facts *)

Lemma count_app p a b : count p (a ++ b) = (count p a + count p b)%nat.
Proof. unfold count. by rewrite List.filter_app, length_app. Qed.

Lemma count_cons p a b :
  count p (a :: b) = ((if p a then 1 else 0) + count p b)%nat.
Proof. unfold count. simpl. by destruct (p a). Qed.

Lemma calls_app a b : calls (a ++ b) = calls a ++ calls b.
Proof. apply omap_app. Qed.

Lemma retry_numbers_app a b : retry_numbers (a ++ b) = retry_numbers a ++ retry_numbers b.
Proof. apply omap_app. Qed.

Lemma halves_app items : (halves items).1 ++ (halves items).2 = items.
Proof. apply take_drop. Qed.

Lemma mid_lt items : (1 < length items)%nat -> (0 < mid items < length items)%nat.
Proof.
  intros H. unfold mid. split.
  - apply Nat.div_str_pos. lia.
  - apply Nat.div_lt; lia.
Qed.

Lemma halves_length items :
  length (halves items).1 = (length items / 2)%nat /\
  length (halves items).2 = (length items - length items / 2)%nat.
Proof.
  unfold halves, mid; cbn [fst snd]. rewrite length_take, length_drop.
  assert (length items / 2 <= length items)%nat by (apply Nat.Div0.div_le_upper_bound; lia).
  lia.
Qed.

Lemma halves_shorter items :
  (1 < length items)%nat ->
  (0 < length (halves items).1 < length items)%nat /\
  (0 < length (halves items).2 < length items)%nat.
Proof.
  intros H. destruct (halves_length items) as [-> ->].
  pose proof (mid_lt items H) as Hm. unfold mid in Hm. lia.
Qed.

(** *** The split decision *)

Lemma splittable_Some kwargs d e items :
  Retry2.splittable kwargs d e = Some items <->
  kwargs !! d = Some (VList items) /\ (1 < length items)%nat /\ oversized e = true.
Proof.
  unfold Retry2.splittable. split.
  - destruct (kwargs !! d) as [[| | |l|]|] eqn:E; try discriminate.
    destruct (1 <? length l)%nat eqn:L; simpl; [|discriminate].
    destruct (oversized e); [|discriminate].
    intros [= ->]. apply Nat.ltb_lt in L. auto.
  - intros (-> & L & ->). apply Nat.ltb_lt in L. by rewrite L.
Qed.

Lemma splittable_None kwargs d e :
  Retry2.splittable kwargs d e = None <->
  forall items, ~ (kwargs !! d = Some (VList items) /\ (1 < length items)%nat /\ oversized e = true).
Proof.
  split.
  - intros H items Hq. apply splittable_Some in Hq. congruence.
  - intros H. destruct (Retry2.splittable kwargs d e) as [items|] eqn:E; [|done].
    apply splittable_Some in E. by destruct (H items).
Qed.

Lemma splittable_same kwargs d e :
  Retry.splittable kwargs d e = Retry2.splittable kwargs d e.
Proof.
  unfold Retry.splittable, Retry2.splittable.
  destruct (oversized e), (kwargs !! d) as [[| | |l|]|]; try done.
  - by rewrite andb_true_r.
  - by rewrite andb_false_r.
Qed.

Lemma find_split_Some dims kwargs e d items :
  Retry2.find_split dims kwargs e = Some (d, items) <->
  exists pre post, dims = pre ++ d :: post /\
    Retry2.splittable kwargs d e = Some items /\
    forall d', d' ∈ pre -> Retry2.splittable kwargs d' e = None.
Proof.
  induction dims as [|c dims IH]; simpl.
  - split; [discriminate|]. intros (pre & post & H & _). by destruct pre.
  - destruct (Retry2.splittable kwargs c e) as [its|] eqn:E.
    + split.
      * intros [= -> ->]. exists [], dims. split_and!; [done|done|]. intros d' H. inversion H.
      * intros (pre & post & H & Hd & Hpre). destruct pre as [|c' pre]; simpl in H.
        -- injection H as -> _. congruence.
        -- injection H as -> _. rewrite Hpre in E; [discriminate|]. left.
    + rewrite IH. split.
      * intros (pre & post & -> & Hd & Hpre). exists (c :: pre), post.
        split_and!; [done|done|]. intros d' [->|H]%elem_of_cons; auto.
      * intros (pre & post & H & Hd & Hpre). destruct pre as [|c' pre]; simpl in H.
        -- injection H as -> _. congruence.
        -- injection H as -> ->. exists pre, post. split_and!; [done|done|].
           intros d' H. apply Hpre. by right.
Qed.

Lemma find_split_None dims kwargs e :
  Retry2.find_split dims kwargs e = None <->
  forall d, d ∈ dims -> Retry2.splittable kwargs d e = None.
Proof.
  induction dims as [|c dims IH]; simpl.
  - split; [|done]. intros _ d H. inversion H.
  - destruct (Retry2.splittable kwargs c e) eqn:E.
    + split; [discriminate|]. intros H. rewrite H in E; [discriminate|left].
    + rewrite IH. split.
      * intros H d [->|Hd]%elem_of_cons; auto.
      * intros H d Hd. apply H. by right.
Qed.

Lemma find_split_not_oversized dims kwargs e :
  oversized e = false -> Retry2.find_split dims kwargs e = None.
Proof.
  intros H. apply find_split_None. intros d _. apply splittable_None.
  intros items (_ & _ & Ho). congruence.
Qed.

Lemma find_split_single kwargs d e :
  Retry2.find_split [d] kwargs e = (fun items => (d, items)) <$> Retry.splittable kwargs d e.
Proof. simpl. rewrite splittable_same. by destruct (Retry2.splittable kwargs d e). Qed.

(** *** [Retry.py] is [Retry2.py] with a single chunk dimension *)

Lemma attempt_query_as_q_call {S} (func : S -> list value -> kwargs_t -> outcome * S)
    fuel name args kwargs d mr r s :
  Retry._attempt_query func fuel args kwargs d mr r s =
  Retry2._attempt_q_call (fun s _ a k => func s a k) fuel name args kwargs [d] mr r s.
Proof.
  revert kwargs r s. induction fuel as [|fuel IH]; intros kwargs r s; [done|].
  cbn [Retry._attempt_query Retry2._attempt_q_call].
  destruct (func s args kwargs) as [[v|e] s1]; [done|].
  rewrite find_split_single.
  destruct (Retry.splittable kwargs d e) as [items|]; simpl.
  - unfold split_then_merge. rewrite !IH.
    destruct (Retry2._attempt_q_call _ fuel name args _ [d] mr r s1) as [r1|]; [|done].
    destruct (out r1); [|done]. by rewrite IH.
  - by rewrite IH.
Qed.

Lemma attempt_query_split {S} (func : S -> list value -> kwargs_t -> outcome * S)
    fuel args kwargs d mr r s e s1 items :
  func s args kwargs = (Raise e, s1) ->
  Retry.splittable kwargs d e = Some items ->
  Retry._attempt_query func (Datatypes.S fuel) args kwargs d mr r s =
    split_then_merge
      [EvCall args kwargs (Raise e); EvSplit d items (halves items).1 (halves items).2]
      (Retry._attempt_query func fuel args (split_kwargs kwargs d items).1 d mr r)
      (Retry._attempt_query func fuel args (split_kwargs kwargs d items).2 d mr r)
      s1.
Proof. intros Hc F. cbn [Retry._attempt_query]. by rewrite Hc, F. Qed.

(** *** One step of the executor *)

Section Steps.
Context {S : Type} (call_q : S -> string -> list value -> kwargs_t -> outcome * S).
Context (name : string) (args : list value) (dims : list string) (mr : Z).

Local Notation "'attempt' fuel kwargs r s" :=
  (Retry2._attempt_q_call call_q fuel name args kwargs dims mr r s)
  (at level 10, fuel, kwargs, r, s at level 9, only parsing).

Lemma attempt_return fuel kwargs r s v s1 :
  call_q s name args kwargs = (Return v, s1) ->
  attempt (Datatypes.S fuel) kwargs r s =
    Some (Run (Return v) s1 [EvCall args kwargs (Return v)]).
Proof. intros H. cbn [Retry2._attempt_q_call]. by rewrite H. Qed.

Lemma attempt_split fuel kwargs r s e s1 d items :
  call_q s name args kwargs = (Raise e, s1) ->
  Retry2.find_split dims kwargs e = Some (d, items) ->
  attempt (Datatypes.S fuel) kwargs r s =
    let pre := [EvCall args kwargs (Raise e);
                EvSplit d items (halves items).1 (halves items).2] in
    split_then_merge pre
      (Retry2._attempt_q_call call_q fuel name args (split_kwargs kwargs d items).1 dims mr r)
      (Retry2._attempt_q_call call_q fuel name args (split_kwargs kwargs d items).2 dims mr r)
      s1.
Proof. intros H F. cbn [Retry2._attempt_q_call]. by rewrite H, F. Qed.

Lemma attempt_retry fuel kwargs r s e s1 :
  call_q s name args kwargs = (Raise e, s1) ->
  Retry2.find_split dims kwargs e = None ->
  r < mr ->
  attempt (Datatypes.S fuel) kwargs r s =
    option_map (emit [EvCall args kwargs (Raise e); EvRetry (r + 1) mr e; EvSleep 1])
      (attempt fuel kwargs (r + 1) s1).
Proof.
  intros H F L. cbn [Retry2._attempt_q_call]. rewrite H, F.
  apply Z.ltb_lt in L. by rewrite L.
Qed.

Lemma attempt_fail fuel kwargs r s e s1 :
  call_q s name args kwargs = (Raise e, s1) ->
  Retry2.find_split dims kwargs e = None ->
  mr <= r ->
  attempt (Datatypes.S fuel) kwargs r s =
    Some (Run (Raise e) s1 [EvCall args kwargs (Raise e); EvGiveUp]).
Proof.
  intros H F L. cbn [Retry2._attempt_q_call]. rewrite H, F.
  apply Z.ltb_ge in L. by rewrite L.
Qed.


(** *** Termination *)

Lemma dim_len_insert kwargs d h c :
  dim_len (<[d := VList h]> kwargs) c =
    if decide (d = c) then length h else dim_len kwargs c.
Proof.
  unfold dim_len. rewrite lookup_insert. by destruct (decide (d = c)).
Qed.

Lemma weight_insert_le kwargs d h items ds :
  kwargs !! d = Some (VList items) -> (length h < length items)%nat ->
  (weight ds (<[d := VList h]> kwargs) <= weight ds kwargs)%nat /\
  (d ∈ ds -> (weight ds (<[d := VList h]> kwargs) < weight ds kwargs)%nat).
Proof.
  intros Hd Hlt. unfold weight.
  induction ds as [|c ds [IH1 IH2]]; simpl.
  - split; [lia|]. intros H; inversion H.
  - rewrite dim_len_insert. destruct (decide (d = c)) as [->|Hne].
    + assert (dim_len kwargs c = length items) as -> by (unfold dim_len; by rewrite Hd).
      split; [lia|]. intros _. lia.
    + split; [lia|]. intros [->|Hin]%elem_of_cons; [done|]. specialize (IH2 Hin). lia.
Qed.

Lemma find_split_weight kwargs e d items :
  Retry2.find_split dims kwargs e = Some (d, items) ->
  (weight dims (split_kwargs kwargs d items).1 < weight dims kwargs)%nat /\
  (weight dims (split_kwargs kwargs d items).2 < weight dims kwargs)%nat.
Proof.
  intros (pre & post & Hdims & (Hd & Hlen & _)%splittable_Some & _)%find_split_Some.
  assert (d ∈ dims) as Hin by (rewrite Hdims; set_solver).
  destruct (halves_shorter items Hlen) as [H1 H2]. cbn [split_kwargs fst snd].
  split; eapply weight_insert_le; eauto; lia.
Qed.

Lemma attempt_terminates fuel kwargs r s :
  (fuel_bound dims kwargs mr r <= fuel)%nat ->
  exists res, attempt fuel kwargs r s = Some res.
Proof.
  unfold fuel_bound. revert kwargs r s.
  induction fuel as [|fuel IH]; intros kwargs r s Hle; [lia|].
  cbn [Retry2._attempt_q_call].
  destruct (call_q s name args kwargs) as [[v|e] s1]; [eauto|].
  destruct (Retry2.find_split dims kwargs e) as [[d items]|] eqn:F.
  - destruct (find_split_weight _ _ _ _ F) as [W1 W2].
    unfold split_kwargs, split_then_merge in *.
    cbn [fst snd] in W1, W2.
    destruct (IH (<[d:=VList (halves items).1]> kwargs) r s1) as [r1 ->]; [lia|].
    destruct (out r1); [|eauto].
    destruct (IH (<[d:=VList (halves items).2]> kwargs) r (st r1)) as [r2 ->]; [lia|].
    destruct (out r2); eauto.
  - destruct (r <? mr) eqn:L; [|eauto]. apply Z.ltb_lt in L.
    destruct (IH kwargs (r + 1) s1) as [r1 ->]; [lia|]. simpl. eauto.
Qed.
End Steps.

(** *** Text *)







Lemma splittable_short kwargs d e items :
  kwargs !! d = Some (VList items) -> (length items <= 1)%nat ->
  Retry2.splittable kwargs d e = None.
Proof.
  intros Hd Hlen. apply splittable_None. intros its (Hd' & Hl & _).
  rewrite Hd in Hd'. injection Hd' as ->. lia.
Qed.

Lemma find_split_all_short dims kwargs e :
  Forall (fun d => (dim_len kwargs d <= 1)%nat) dims ->
  Retry2.find_split dims kwargs e = None.
Proof.
  intros Hall. apply find_split_None. intros d Hin. apply splittable_None.
  intros items (Hd & Hlen & _).
  rewrite Forall_forall in Hall. specialize (Hall d Hin).
  unfold dim_len in Hall. rewrite Hd in Hall. lia.
Qed.

(** *** What every finished run satisfies *)

Section Invariants.
Context {S : Type} (call_q : S -> string -> list value -> kwargs_t -> outcome * S).
Context (name : string) (args : list value) (dims : list string) (mr : Z).

Local Notation "'attempt' fuel kwargs r s" :=
  (Retry2._attempt_q_call call_q fuel name args kwargs dims mr r s)
  (at level 10, fuel, kwargs, r, s at level 9, only parsing).

(** Induction over the recursion of the executor: a property of finished
    runs that holds of a returning call, of a give-up, and is carried by
    the retry and by the split from the sub-runs to the run. *)
Lemma attempt_ind (P : kwargs_t -> Z -> S -> run S -> Prop) :
  (forall kwargs r s v s1,
      call_q s name args kwargs = (Return v, s1) ->
      P kwargs r s (Run (Return v) s1 [EvCall args kwargs (Return v)])) ->
  (forall kwargs r s e s1,
      call_q s name args kwargs = (Raise e, s1) ->
      Retry2.find_split dims kwargs e = None -> mr <= r ->
      P kwargs r s (Run (Raise e) s1 [EvCall args kwargs (Raise e); EvGiveUp])) ->
  (forall kwargs r s e s1 r1,
      call_q s name args kwargs = (Raise e, s1) ->
      Retry2.find_split dims kwargs e = None -> r < mr ->
      P kwargs (r + 1) s1 r1 ->
      P kwargs r s
        (emit [EvCall args kwargs (Raise e); EvRetry (r + 1) mr e; EvSleep 1] r1)) ->
  (forall kwargs r s e s1 d items r1 e1,
      call_q s name args kwargs = (Raise e, s1) ->
      Retry2.find_split dims kwargs e = Some (d, items) ->
      P (split_kwargs kwargs d items).1 r s1 r1 -> out r1 = Raise e1 ->
      P kwargs r s
        (emit [EvCall args kwargs (Raise e);
               EvSplit d items (halves items).1 (halves items).2] r1)) ->
  (forall kwargs r s e s1 d items r1 v1 r2,
      call_q s name args kwargs = (Raise e, s1) ->
      Retry2.find_split dims kwargs e = Some (d, items) ->
      P (split_kwargs kwargs d items).1 r s1 r1 -> out r1 = Return v1 ->
      P (split_kwargs kwargs d items).2 r (st r1) r2 ->
      P kwargs r s
        (Run (match out r2 with Raise e2 => Raise e2 | Return v2 => py_add v1 v2 end)
             (st r2)
             ([EvCall args kwargs (Raise e);
               EvSplit d items (halves items).1 (halves items).2]
              ++ evs r1 ++ evs r2))) ->
  forall fuel kwargs r s res,
    attempt fuel kwargs r s = Some res -> P kwargs r s res.
Proof.
  intros Hret Hfail Hretry Hleft Hboth.
  induction fuel as [|fuel IH]; intros kwargs r s res; [done|].
  cbn [Retry2._attempt_q_call].
  destruct (call_q s name args kwargs) as [[v|e] s1] eqn:C.
  { intros [= <-]. by apply Hret. }
  destruct (Retry2.find_split dims kwargs e) as [[d items]|] eqn:F.
  - unfold split_kwargs, split_then_merge in *.
    destruct (Retry2._attempt_q_call call_q fuel _ _ _ _ _ _ s1) as [r1|] eqn:E1; [|done].
    apply IH in E1.
    destruct (out r1) as [v1|e1] eqn:O1.
    + destruct (Retry2._attempt_q_call call_q fuel _ _ _ _ _ _ (st r1)) as [r2|] eqn:E2; [|done].
      apply IH in E2. pose proof (Hboth _ _ _ _ _ _ _ _ _ _ C F E1 O1 E2) as HP.
      destruct (out r2) as [v2|e2] eqn:O2; intros [= <-].
      * exact HP.
      * unfold emit. rewrite O2. exact HP.
    + intros [= <-]. eapply Hleft; eauto.
  - destruct (r <? mr) eqn:L.
    + apply Z.ltb_lt in L.
      destruct (Retry2._attempt_q_call call_q fuel _ _ _ _ _ _ s1) as [r1|] eqn:E1; [|done].
      intros [= <-]. eapply Hretry; eauto.
    + apply Z.ltb_ge in L. intros [= <-]. by apply Hfail.
Qed.
End Invariants.

Section RunFacts.
Context {S : Type} (call_q : S -> string -> list value -> kwargs_t -> outcome * S).
Context (name : string) (args : list value) (dims : list string) (mr : Z).

Local Notation "'attempt' fuel kwargs r s" :=
  (Retry2._attempt_q_call call_q fuel name args kwargs dims mr r s)
  (at level 10, fuel, kwargs, r, s at level 9, only parsing).

Lemma find_split_in kwargs e d items :
  Retry2.find_split dims kwargs e = Some (d, items) ->
  d ∈ dims /\ kwargs !! d = Some (VList items) /\ (1 < length items)%nat /\
  oversized e = true.
Proof.
  intros (pre & post & -> & (Hd & Hlen & Ho)%splittable_Some & _)%find_split_Some.
  split_and!; auto. set_solver.
Qed.

(** The frame of a sub-run, read from the parent's keyword arguments. *)
Local Ltac carry_frame IH :=
  eapply Forall_impl; [exact IH|];
  let c := fresh "c" in let Ha := fresh "Ha" in let Hk := fresh "Hk" in
  let key := fresh "key" in let Hkey := fresh "Hkey" in
  intros c [Ha Hk]; split; [done|]; intros key Hkey; rewrite (Hk key Hkey);
  unfold split_kwargs; cbn; apply lookup_insert_ne; set_solver.


(** Every call gets the positional arguments unchanged and keyword
    arguments that differ from the original ones on chunk dimensions only. *)
Lemma run_calls_frame fuel kwargs r s res :
  attempt fuel kwargs r s = Some res ->
  Forall (fun c => c.1.1 = args /\
                   forall key, key ∉ dims -> c.1.2 !! key = kwargs !! key)
         (calls (evs res)).
Proof.
  revert fuel kwargs r s res.
  apply (attempt_ind call_q name args dims mr
           (fun kwargs _ _ res =>
              Forall (fun c => c.1.1 = args /\
                   forall key, key ∉ dims -> c.1.2 !! key = kwargs !! key)
                (calls (evs res)))); cbn [emit evs].
  - intros kwargs r s v s1 _. by repeat constructor.
  - intros kwargs r s e s1 _ _ _. by repeat constructor.
  - intros kwargs r s e s1 r1 _ _ _ IH. by constructor.
  - intros kwargs r s e s1 d items r1 e1 _ (Hin & _)%find_split_in IH _.
    constructor; [done|]. cbn. carry_frame IH.
  - intros kwargs r s e s1 d items r1 v1 r2 _ (Hin & _)%find_split_in IH1 _ IH2.
    constructor; [done|]. cbn. rewrite calls_app. apply Forall_app.
    split; [carry_frame IH1 | carry_frame IH2].
Qed.

(** A dimension holding at most one element is split nowhere in the run. *)
Lemma run_no_split_on d items fuel kwargs r s res :
  kwargs !! d = Some (VList items) -> (length items <= 1)%nat ->
  attempt fuel kwargs r s = Some res ->
  count (is_split_on d) (evs res) = 0%nat.
Proof.
  intros Hd Hlen Hrun. revert fuel kwargs r s res Hrun Hd.
  assert (forall kwargs e d' its,
            Retry2.find_split dims kwargs e = Some (d', its) ->
            kwargs !! d = Some (VList items) -> d' <> d) as Hother.
  { intros kwargs e d' its (_ & Hd' & Hl & _)%find_split_in Hd ->.
    rewrite Hd in Hd'. injection Hd' as ->. lia. }
  apply (attempt_ind call_q name args dims mr
           (fun kwargs _ _ res =>
              kwargs !! d = Some (VList items) ->
              count (is_split_on d) (evs res) = 0%nat)); cbn [emit evs].
  - done.
  - done.
  - intros kwargs r s e s1 r1 _ _ _ IH Hd. by rewrite count_app, IH.
  - intros kwargs r s e s1 d' its r1 e1 _ F IH _ Hd.
    pose proof (Hother _ _ _ _ F Hd) as Hne.
    rewrite count_app, IH by (unfold split_kwargs; cbn; by rewrite lookup_insert_ne).
    rewrite !count_cons. cbn. by rewrite bool_decide_eq_false_2.
  - intros kwargs r s e s1 d' its r1 v1 r2 _ F IH1 _ IH2 Hd.
    pose proof (Hother _ _ _ _ F Hd) as Hne.
    rewrite !count_app, IH1, IH2
      by (unfold split_kwargs; cbn; by rewrite lookup_insert_ne).
    rewrite !count_cons. cbn. by rewrite bool_decide_eq_false_2.
Qed.

(** The retry lines of a run started at counter [r] are numbered above
    [r] and at most [max_retries]. *)
Lemma run_retry_numbers fuel kwargs r s res :
  attempt fuel kwargs r s = Some res ->
  Forall (fun n => r < n <= mr) (retry_numbers (evs res)).
Proof.
  revert fuel kwargs r s res.
  apply (attempt_ind call_q name args dims mr
           (fun _ r _ res => Forall (fun n => r < n <= mr) (retry_numbers (evs res))));
    cbn [emit evs].
  - constructor.
  - constructor.
  - intros kwargs r s e s1 r1 _ _ L IH. cbn. constructor; [lia|].
    eapply Forall_impl; [exact IH|]. cbn. intros; lia.
  - intros kwargs r s e s1 d items r1 e1 _ _ IH _. exact IH.
  - intros kwargs r s e s1 d items r1 v1 r2 _ _ IH1 _ IH2. cbn.
    rewrite retry_numbers_app. by apply Forall_app.
Qed.

End RunFacts.

(** *** A call that keeps failing with nothing to split *)

Section Exhaust.
Context {S : Type} (call_q : S -> string -> list value -> kwargs_t -> outcome * S).
Context (name : string) (args : list value) (dims : list string) (mr : Z).
Context (kwargs : kwargs_t).

Hypothesis always_fails :
  forall s, exists e,
    (call_q s name args kwargs).1 = Raise e /\
    Retry2.find_split dims kwargs e = None.

Lemma exhaust_retries fuel r s :
  r <= mr -> (Z.to_nat (mr - r) < fuel)%nat ->
  exists res e s_last,
    Retry2._attempt_q_call call_q fuel name args kwargs dims mr r s = Some res /\
    out res = Raise e /\
    call_q s_last name args kwargs = (Raise e, st res) /\
    st res = Nat.iter (Datatypes.S (Z.to_nat (mr - r)))
               (fun s => (call_q s name args kwargs).2) s /\
    last (calls (evs res)) = Some (args, kwargs, Raise e) /\
    Forall (fun c => c.1 = (args, kwargs)) (calls (evs res)) /\
    Z.of_nat (count is_call (evs res)) = mr - r + 1 /\
    Z.of_nat (count is_retry (evs res)) = mr - r /\
    count is_split (evs res) = 0%nat.
Proof.
  revert r s. induction fuel as [|fuel IH]; intros r s Hr Hfuel; [lia|].
  destruct (always_fails s) as (e & He & F).
  destruct (call_q s name args kwargs) as [o s1] eqn:C. cbn [fst] in He. subst o.
  destruct (Z.lt_ge_cases r mr) as [L|L].
  - destruct (IH (r + 1) s1)
      as (res & e' & s_last & Hrun & Ho & Hl & Hst & Hlast & Hall & Hc & Hr' & Hs);
      [lia|lia|].
    rewrite (attempt_retry _ _ _ _ _ _ _ _ _ _ _ C F L), Hrun.
    eexists _, e', s_last. split; [reflexivity|]. cbn [option_map emit out st evs].
    split_and!; try done.
    + rewrite Hst. replace (Z.to_nat (mr - r)) with (Datatypes.S (Z.to_nat (mr - (r + 1))))
        by lia.
      rewrite (Nat.iter_succ_r (Datatypes.S _)). by rewrite C.
    + rewrite calls_app. cbn. by rewrite last_cons, Hlast.
    + constructor; done.
    + rewrite count_app, count_cons. cbn. lia.
    + rewrite count_app. cbn. lia.
  - rewrite (attempt_fail _ _ _ _ _ _ _ _ _ _ _ C F L).
    eexists _, e, s. split; [reflexivity|]. cbn [out st evs].
    replace (Z.to_nat (mr - r)) with 0%nat by lia.
    split_and!; try done.
    + cbn. by rewrite C.
    + by repeat constructor.
    + cbn. lia.
    + cbn. lia.
Qed.
End Exhaust.

(** *** A call that fails a few times and then returns *)

Section Chains.
Context {S : Type} (call_q : S -> string -> list value -> kwargs_t -> outcome * S).
Context (name : string) (args : list value) (dims : list string) (mr : Z).
Context (kwargs : kwargs_t).

(** Within the budget: [k] retries, then the value. *)
Lemma retry_chain k fuel r s v s' :
  fails_then_returns call_q name args kwargs dims k s v s' ->
  r + Z.of_nat k <= mr -> (k < fuel)%nat ->
  exists res,
    Retry2._attempt_q_call call_q fuel name args kwargs dims mr r s = Some res /\
    out res = Return v /\ st res = s' /\
    count is_retry (evs res) = k /\
    count is_call (evs res) = Datatypes.S k /\
    count is_split (evs res) = 0%nat.
Proof.
  revert fuel r s. induction k as [|k IH]; intros fuel r s Hk Hr Hfuel;
    (destruct fuel as [|fuel]; [lia|]); cbn [fails_then_returns] in Hk.
  - rewrite (attempt_return _ _ _ _ _ _ _ _ _ _ _ Hk). eexists. by split.
  - destruct Hk as (e & s1 & Hc & F & Hk).
    rewrite (attempt_retry _ _ _ _ _ _ _ _ _ _ _ Hc F) by lia.
    destruct (IH fuel (r + 1) s1 Hk) as (res & -> & Ho & Hs & Hn & Hcalls & Hsp); [lia|lia|].
    eexists. split; [reflexivity|]. cbn [option_map emit out st evs].
    rewrite !count_app, Hn, Hcalls, Hsp. by cbn.
Qed.

(** Beyond the budget: the retries left are spent and the call fails. *)
Lemma retry_chain_exhausted k fuel r s v s' :
  fails_then_returns call_q name args kwargs dims k s v s' ->
  r <= mr -> mr - r < Z.of_nat k -> (Z.to_nat (mr - r) < fuel)%nat ->
  exists res e,
    Retry2._attempt_q_call call_q fuel name args kwargs dims mr r s = Some res /\
    out res = Raise e /\
    Z.of_nat (count is_retry (evs res)) = mr - r /\
    count is_split (evs res) = 0%nat.
Proof.
  revert fuel r s. induction k as [|k IH]; intros fuel r s Hk Hr Hlt Hfuel; [lia|].
  destruct fuel as [|fuel]; [lia|]. cbn [fails_then_returns] in Hk.
  destruct Hk as (e & s1 & Hc & F & Hk).
  destruct (Z.lt_ge_cases r mr) as [L|L].
  - rewrite (attempt_retry _ _ _ _ _ _ _ _ _ _ _ Hc F L).
    destruct (IH fuel (r + 1) s1 Hk) as (res & e' & -> & Ho & Hn & Hsp); [lia|lia|lia|].
    eexists _, e'. split; [reflexivity|]. cbn [option_map emit out st evs].
    rewrite !count_app, Hsp. split_and!; [done| |done]. cbn. lia.
  - rewrite (attempt_fail _ _ _ _ _ _ _ _ _ _ _ Hc F L).
    eexists _, e. split; [reflexivity|]. cbn. split_and!; [done|lia|done].
Qed.
End Chains.

(** *** The frame transport *)

Section Transport.
Import ArrowClient.

Lemma byte_of_Z_value z : Z.of_N (Byte.to_N (byte_of_Z z)) = z mod 256.
Proof.
  unfold byte_of_Z. pose proof (Z.mod_pos_bound z 256 ltac:(lia)) as Hb.
  destruct (Byte.of_N (Z.to_N (z mod 256))) as [b|] eqn:E.
  - apply Byte.to_of_N in E. cbn. lia.
  - apply Byte.of_N_None_iff in E. lia.
Qed.

Lemma be_value_snoc bs b :
  be_value (bs ++ [b]) = be_value bs * 256 + Z.of_N (Byte.to_N b).
Proof. unfold be_value. by rewrite fold_left_app. Qed.

Lemma length_be_bytes n L : length (be_bytes n L) = n.
Proof.
  revert L. induction n as [|n IH]; intros L; cbn [be_bytes]; [done|].
  rewrite length_app, IH. cbn. lia.
Qed.

Lemma be_value_be_bytes n L :
  0 <= L -> be_value (be_bytes n L) = L mod 256 ^ Z.of_nat n.
Proof.
  revert L. induction n as [|n IH]; intros L HL.
  - cbn. by rewrite Z.mod_1_r.
  - cbn [be_bytes]. rewrite be_value_snoc, byte_of_Z_value, IH
      by (apply Z.div_pos; lia).
    rewrite Nat2Z.inj_succ, Z.pow_succ_r by lia.
    assert (0 < 256 ^ Z.of_nat n) by (apply Z.pow_pos_nonneg; lia).
    rewrite Z.rem_mul_r by lia. lia.
Qed.

Lemma unpack_pack L : 0 <= L < 2 ^ 64 -> unpack_Q (pack_Q L) = Some L.
Proof.
  intros HL. unfold unpack_Q, pack_Q. rewrite length_be_bytes. cbn [Nat.eqb].
  rewrite be_value_be_bytes by lia. f_equal. apply Z.mod_small.
  change (256 ^ Z.of_nat 8) with (2 ^ 64). lia.
Qed.

(** One [recv] on a socket whose deliveries are all non-empty. *)
Lemma recv_spec n (s : socket) :
  0 < n -> Forall (fun d => d <> []) s ->
  match s with
  | [] => recv n s = Chunk [] []
  | _ => exists chunk rest,
      recv n s = Chunk chunk rest /\ chunk <> [] /\
      Z.of_nat (length chunk) <= n /\
      chunk ++ concat rest = concat s /\
      Forall (fun d => d <> []) rest
  end.
Proof.
  intros Hn Hs. unfold recv.
  assert ((n <? 0) = false) as -> by lia.
  destruct s as [|d rest]; [done|].
  apply Forall_cons in Hs as [Hd Hrest].
  destruct (length d <=? Z.to_nat n)%nat eqn:E.
  - apply Nat.leb_le in E. exists d, rest. split_and!; auto. lia.
  - apply Nat.leb_gt in E. exists (take (Z.to_nat n) d), (drop (Z.to_nat n) d :: rest).
    split_and!; [done| | | |].
    + intros H. apply (f_equal length) in H. rewrite length_take in H. cbn in H. lia.
    + rewrite length_take. lia.
    + cbn. by rewrite (assoc_L (++)), take_drop.
    + constructor; [|done]. intros H. apply (f_equal length) in H.
      rewrite length_drop in H. cbn in H. lia.
Qed.

(** The payload loop gathers exactly [remaining] bytes of the stream, or
    fails when the stream ends before. *)
Lemma read_payload_spec fuel bs data remaining (s : socket) :
  0 < bs -> Forall (fun d => d <> []) s -> 0 <= remaining ->
  (Z.to_nat remaining <= fuel)%nat ->
  if decide (remaining <= Z.of_nat (length (concat s))) then
    exists rest,
      read_payload fuel bs data remaining s
        = Some (Bytes (data ++ take (Z.to_nat remaining) (concat s)) rest) /\
      concat rest = drop (Z.to_nat remaining) (concat s) /\
      Forall (fun d => d <> []) rest
  else read_payload fuel bs data remaining s = Some (Failed data_closed []).
Proof.
  intros Hbs. revert data remaining s.
  induction fuel as [|fuel IH]; intros data remaining s Hs Hrem Hfuel.
  - assert (remaining = 0) as -> by lia. cbn.
    rewrite decide_True by lia. exists s. by rewrite app_nil_r.
  - cbn [read_payload]. destruct (0 <? remaining) eqn:E.
    2:{ assert (remaining = 0) as -> by lia. cbn.
        rewrite decide_True by lia. exists s. by rewrite app_nil_r. }
    apply Z.ltb_lt in E.
    pose proof (recv_spec (Z.min bs remaining) s ltac:(lia) Hs) as Hrecv.
    destruct s as [|d s0].
    { rewrite Hrecv. cbn. by rewrite decide_False by lia. }
    destruct Hrecv as (chunk & rest & -> & Hne & Hlen & Hcat & Hrest).
    destruct chunk as [|b chunk]; [done|].
    specialize (IH (data ++ b :: chunk) (remaining - Z.of_nat (length (b :: chunk)))
                  rest Hrest ltac:(lia) ltac:(cbn [length] in *; lia)).
    rewrite <- Hcat. rewrite length_app.
    destruct (decide (remaining - Z.of_nat (length (b :: chunk))
                      <= Z.of_nat (length (concat rest)))) as [Hle|Hgt].
    + rewrite decide_True by lia.
      destruct IH as (rest' & -> & Hrest' & Hne').
      exists rest'. split_and!; [| |done].
      * do 2 f_equal. rewrite take_app, (take_ge (b :: chunk)) by lia.
        rewrite <- (assoc_L (++)). do 3 f_equal. lia.
      * rewrite drop_app, (drop_ge (b :: chunk)) by lia.
        rewrite Hrest'. cbn [app]. f_equal. lia.
    + rewrite decide_False by lia. exact IH.
Qed.

(** The header loop, likewise, for the [8 - len(header)] bytes missing. *)
Lemma read_header_spec fuel header (s : socket) :
  Forall (fun d => d <> []) s -> (length header <= 8)%nat ->
  (8 - length header <= fuel)%nat ->
  if decide (8 - length header <= length (concat s))%nat then
    exists rest,
      read_header fuel header s
        = Some (Bytes (header ++ take (8 - length header) (concat s)) rest) /\
      concat rest = drop (8 - length header) (concat s) /\
      Forall (fun d => d <> []) rest
  else read_header fuel header s = Some (Failed header_closed []).
Proof.
  revert header s.
  induction fuel as [|fuel IH]; intros header s Hs Hh Hfuel.
  - assert (length header = 8%nat) as Hl by lia. cbn. rewrite Hl. cbn.
    rewrite decide_True by lia. exists s. by rewrite app_nil_r.
  - cbn [read_header]. destruct (Z.of_nat (length header) <? 8) eqn:E.
    2:{ assert (length header = 8%nat) as Hl by lia. rewrite Hl. cbn.
        rewrite decide_True by lia. exists s. by rewrite app_nil_r. }
    apply Z.ltb_lt in E.
    pose proof (recv_spec (8 - Z.of_nat (length header)) s ltac:(lia) Hs) as Hrecv.
    destruct s as [|d s0].
    { rewrite Hrecv. cbn. by rewrite decide_False by lia. }
    destruct Hrecv as (chunk & rest & -> & Hne & Hlen & Hcat & Hrest).
    destruct chunk as [|b chunk]; [done|].
    specialize (IH (header ++ b :: chunk) rest Hrest).
    rewrite length_app in IH.
    specialize (IH ltac:(cbn [length] in *; lia) ltac:(cbn [length] in *; lia)).
    rewrite <- Hcat. rewrite length_app.
    destruct (decide (8 - (length header + length (b :: chunk))
                      <= length (concat rest))%nat) as [Hle|Hgt].
    + rewrite decide_True by lia.
      destruct IH as (rest' & -> & Hrest' & Hne').
      exists rest'. split_and!; [| |done].
      * do 2 f_equal. rewrite take_app, (take_ge (b :: chunk)) by (cbn [length] in *; lia).
        rewrite <- (assoc_L (++)). do 3 f_equal. lia.
      * rewrite drop_app, (drop_ge (b :: chunk)) by (cbn [length] in *; lia).
        rewrite Hrest'. cbn [app]. f_equal. lia.
    + rewrite decide_False by lia. exact IH.
Qed.
End Transport.

(** * Properties of the executor and of the transport *)

(** C1. Split completeness: a list of length n > 1 is split into two
    lists of lengths floor(n/2) and n - floor(n/2), in that order, whose
    concatenation is the list itself. *)
Theorem split_completeness (items : list value) :
  (1 < length items)%nat ->
  length (halves items).1 = (length items / 2)%nat /\
  length (halves items).2 = (length items - length items / 2)%nat /\
  (halves items).1 ++ (halves items).2 = items.
Proof.
  intros _. destruct (halves_length items) as [H1 H2].
  split_and!; [exact H1 | exact H2 | apply halves_app].
Qed.

Lemma split_completeness_witness :
  (1 < length Retry.symbols_list)%nat /\
  length (halves Retry.symbols_list).1 = 3%nat /\
  length (halves Retry.symbols_list).2 = 3%nat /\
  (halves Retry.symbols_list).1 ++ (halves Retry.symbols_list).2 = Retry.symbols_list.
Proof.
  split; [vm_compute; lia|].
  apply (split_completeness Retry.symbols_list). vm_compute; lia.
Defined.

(** C2, as stated, fails: a branch does not get [max_retries] retries of
    its own.  With [max_retries = 1] the store below times out once, so
    the split happens at retry count 1; the left branch then times out
    once and would be answered by its next call, one retry later, yet it
    is given none and the run fails. *)
Lemma branch_budget_is_not_max_retries :
  exists res,
    Retry2._attempt_q_call moody_conn 3 "getData" [] pair_kwargs ["symbols"] 1 0 0%nat
      = Some res /\
    evs res =
      [EvCall [] pair_kwargs (Raise timeout_error);
       EvRetry 1 1 timeout_error; EvSleep 1;
       EvCall [] pair_kwargs (Raise (Exn ValueError "Query too big"));
       EvSplit "symbols" [VStr "AAPL"; VStr "GOOG"] [VStr "AAPL"] [VStr "GOOG"];
       EvCall [] (<["symbols" := VList [VStr "AAPL"]]> pair_kwargs) (Raise timeout_error);
       EvGiveUp] /\
    out res = Raise timeout_error /\
    fails_then_returns moody_conn "getData" []
      (<["symbols" := VList [VStr "AAPL"]]> pair_kwargs) ["symbols"]
      1 2%nat (VList [VStr "AAPL"]) 4%nat /\
    ~ (forall k v s',
         fails_then_returns moody_conn "getData" []
           (<["symbols" := VList [VStr "AAPL"]]> pair_kwargs) ["symbols"] k 2%nat v s' ->
         Z.of_nat k <= 1 ->
         exists res1,
           Retry2._attempt_q_call moody_conn 2 "getData" []
             (<["symbols" := VList [VStr "AAPL"]]> pair_kwargs) ["symbols"] 1 1 2%nat
             = Some res1 /\
           out res1 = Return v).
Proof.
  assert (fails_then_returns moody_conn "getData" []
      (<["symbols" := VList [VStr "AAPL"]]> pair_kwargs) ["symbols"]
      1 2%nat (VList [VStr "AAPL"]) 4%nat) as Hchain.
  { cbn [fails_then_returns]. eexists _, _. split; [reflexivity|].
    split; [vm_compute; reflexivity|]. vm_compute; reflexivity. }
  eexists. split; [vm_compute; reflexivity|]. split; [vm_compute; reflexivity|].
  split; [reflexivity|]. split; [exact Hchain|].
  intros H. destruct (H _ _ _ Hchain ltac:(lia)) as (res1 & Hrun & Hout).
  vm_compute in Hrun. injection Hrun as <-. discriminate Hout.
Qed.

(** C2, amended. A split at retry count [r] runs both branches from the
    counter [r], unincremented, the right one after the left; every retry
    line of the run is numbered above [r] and at most [max_retries].  The
    budgets are independent and each is [max_retries - r]: if the left
    branch needs [k1] and the right branch [k2] retries, both within
    [max_retries - r], the run returns the merged result after
    [k1 + k2] retries, and a branch needing more than [max_retries - r]
    makes the run fail. *)
Theorem retry_budget_across_splits {S : Type}
    (call_q : S -> string -> list value -> kwargs_t -> outcome * S)
    (func : S -> list value -> kwargs_t -> outcome * S)
    (name : string) (args : list value) (dims : list string) (mr : Z)
    (fuel : nat) (kwargs : kwargs_t) (r : Z) (s : S) (e : exn) (s1 : S)
    (d : string) (items : list value) :
  call_q s name args kwargs = (Raise e, s1) ->
  Retry2.find_split dims kwargs e = Some (d, items) ->
  let kwargs1 := (split_kwargs kwargs d items).1 in
  let kwargs2 := (split_kwargs kwargs d items).2 in
  let pre := [EvCall args kwargs (Raise e);
              EvSplit d items (halves items).1 (halves items).2] in
  Retry2._attempt_q_call call_q (Datatypes.S fuel) name args kwargs dims mr r s =
    split_then_merge pre
      (Retry2._attempt_q_call call_q fuel name args kwargs1 dims mr r)
      (Retry2._attempt_q_call call_q fuel name args kwargs2 dims mr r) s1 /\
  (forall s0 e0 s01,
     func s0 args kwargs = (Raise e0, s01) ->
     Retry.splittable kwargs d e0 = Some items ->
     Retry._attempt_query func (Datatypes.S fuel) args kwargs d mr r s0 =
       split_then_merge
         [EvCall args kwargs (Raise e0);
          EvSplit d items (halves items).1 (halves items).2]
         (Retry._attempt_query func fuel args kwargs1 d mr r)
         (Retry._attempt_query func fuel args kwargs2 d mr r) s01) /\
  (forall res,
     Retry2._attempt_q_call call_q (Datatypes.S fuel) name args kwargs dims mr r s
       = Some res ->
     Forall (fun n => r < n <= mr) (retry_numbers (evs res))) /\
  (forall k1 k2 v1 v2 s2 s3,
     fails_then_returns call_q name args kwargs1 dims k1 s1 v1 s2 ->
     fails_then_returns call_q name args kwargs2 dims k2 s2 v2 s3 ->
     r + Z.of_nat k1 <= mr -> r + Z.of_nat k2 <= mr ->
     (k1 < fuel)%nat -> (k2 < fuel)%nat ->
     exists res,
       Retry2._attempt_q_call call_q (Datatypes.S fuel) name args kwargs dims mr r s
         = Some res /\
       out res = py_add v1 v2 /\ st res = s3 /\
       count is_retry (evs res) = (k1 + k2)%nat /\
       count is_split (evs res) = 1%nat) /\
  (forall k1 v1 s2,
     fails_then_returns call_q name args kwargs1 dims k1 s1 v1 s2 ->
     r <= mr -> mr - r < Z.of_nat k1 -> (Z.to_nat (mr - r) < fuel)%nat ->
     exists res e1,
       Retry2._attempt_q_call call_q (Datatypes.S fuel) name args kwargs dims mr r s
         = Some res /\
       out res = Raise e1 /\
       Z.of_nat (count is_retry (evs res)) = mr - r).
Proof.
  intros Hc F. cbv zeta.
  pose proof (attempt_split call_q name args dims mr fuel kwargs r s e s1 d items Hc F)
    as Hstep. cbv zeta in Hstep.
  split_and!.
  - exact Hstep.
  - intros s0 e0 s01 Hc0 F0. by apply attempt_query_split.
  - intros res. apply run_retry_numbers.
  - intros k1 k2 v1 v2 s2 s3 H1 H2 Hr1 Hr2 Hf1 Hf2.
    destruct (retry_chain call_q name args dims mr _ k1 fuel r s1 v1 s2 H1 Hr1 Hf1)
      as (r1 & E1 & O1 & S1 & N1 & _ & P1).
    destruct (retry_chain call_q name args dims mr _ k2 fuel r s2 v2 s3 H2 Hr2 Hf2)
      as (r2 & E2 & O2 & S2 & N2 & _ & P2).
    rewrite Hstep. unfold split_then_merge. rewrite E1, O1, S1, E2, O2.
    eexists. split; [reflexivity|]. cbn [out st evs].
    rewrite !count_app, N1, N2, P1, P2. by cbn.
  - intros k1 v1 s2 H1 Hr Hlt Hf.
    destruct (retry_chain_exhausted call_q name args dims mr _ k1 fuel r s1 v1 s2 H1 Hr Hlt Hf)
      as (r1 & e1 & E1 & O1 & N1 & _).
    rewrite Hstep. unfold split_then_merge. rewrite E1, O1.
    eexists _, e1. split; [reflexivity|]. cbn [emit out st evs].
    split; [done|]. rewrite count_app. cbn. lia.
Qed.

Lemma retry_budget_across_splits_witness :
  moody_conn 1%nat "getData" [] pair_kwargs
    = (Raise (Exn ValueError "Query too big"), 2%nat) /\
  Retry2.find_split ["symbols"] pair_kwargs (Exn ValueError "Query too big")
    = Some ("symbols", [VStr "AAPL"; VStr "GOOG"]) /\
  fails_then_returns moody_conn "getData" []
    (split_kwargs pair_kwargs "symbols" [VStr "AAPL"; VStr "GOOG"]).1 ["symbols"]
    1 2%nat (VList [VStr "AAPL"]) 4%nat /\
  fails_then_returns moody_conn "getData" []
    (split_kwargs pair_kwargs "symbols" [VStr "AAPL"; VStr "GOOG"]).2 ["symbols"]
    0 4%nat (VList [VStr "GOOG"]) 5%nat /\
  (exists res,
     Retry2._attempt_q_call moody_conn 3 "getData" [] pair_kwargs ["symbols"] 2 1 1%nat
       = Some res /\
     out res = py_add (VList [VStr "AAPL"]) (VList [VStr "GOOG"]) /\
     st res = 5%nat /\
     count is_retry (evs res) = (1 + 0)%nat /\
     count is_split (evs res) = 1%nat) /\
  (exists res e1,
     Retry2._attempt_q_call moody_conn 3 "getData" [] pair_kwargs ["symbols"] 1 1 1%nat
       = Some res /\
     out res = Raise e1 /\
     Z.of_nat (count is_retry (evs res)) = 1 - 1).
Proof.
  assert (moody_conn 1%nat "getData" [] pair_kwargs
            = (Raise (Exn ValueError "Query too big"), 2%nat)) as H1 by reflexivity.
  assert (Retry2.find_split ["symbols"] pair_kwargs (Exn ValueError "Query too big")
            = Some ("symbols", [VStr "AAPL"; VStr "GOOG"])) as H2
    by (vm_compute; reflexivity).
  assert (fails_then_returns moody_conn "getData" []
            (split_kwargs pair_kwargs "symbols" [VStr "AAPL"; VStr "GOOG"]).1 ["symbols"]
            1 2%nat (VList [VStr "AAPL"]) 4%nat) as L.
  { cbn [fails_then_returns]. eexists _, _. split; [reflexivity|].
    split; [vm_compute; reflexivity|]. vm_compute; reflexivity. }
  assert (fails_then_returns moody_conn "getData" []
            (split_kwargs pair_kwargs "symbols" [VStr "AAPL"; VStr "GOOG"]).2 ["symbols"]
            0 4%nat (VList [VStr "GOOG"]) 5%nat) as R
    by (vm_compute; reflexivity).
  split_and!; [exact H1|exact H2|exact L|exact R| |].
  - refine (proj1 (proj2 (proj2 (proj2
      (retry_budget_across_splits moody_conn (fun s a k => moody_conn s "getData" a k)
         "getData" [] ["symbols"] 2 2 pair_kwargs 1 1%nat _ 2%nat
         "symbols" [VStr "AAPL"; VStr "GOOG"] H1 H2))))
      1%nat 0%nat _ _ _ _ L R _ _ _ _); lia.
  - refine (proj2 (proj2 (proj2 (proj2
      (retry_budget_across_splits moody_conn (fun s a k => moody_conn s "getData" a k)
         "getData" [] ["symbols"] 1 2 pair_kwargs 1 1%nat _ 2%nat
         "symbols" [VStr "AAPL"; VStr "GOOG"] H1 H2))))
      1%nat _ _ L _ _ _); [lia|lia|vm_compute; lia].
Defined.

(** C3. Retry termination: when every attempt fails with an error that is
    not oversized, the executor started at [retries = 0] calls the
    function [max_retries + 1] times, with the same arguments each time,
    retrying [max_retries] times and never splitting, and then raises the
    very exception the last call raised.  The function's state has been
    stepped [max_retries + 1] times. *)
Theorem retry_termination {S : Type}
    (call_q : S -> string -> list value -> kwargs_t -> outcome * S)
    (func : S -> list value -> kwargs_t -> outcome * S)
    (name : string) (args : list value) (dims : list string) (chunk_dim : string)
    (mr : Z) (kwargs : kwargs_t) (s : S) (fuel : nat) :
  0 <= mr -> mr < Z.of_nat fuel ->
  ((forall s', exists e,
       (call_q s' name args kwargs).1 = Raise e /\ oversized e = false) ->
   exists res e s_last,
     Retry2._attempt_q_call call_q fuel name args kwargs dims mr 0 s = Some res /\
     out res = Raise e /\
     call_q s_last name args kwargs = (Raise e, st res) /\
     st res = Nat.iter (Datatypes.S (Z.to_nat mr))
                (fun s => (call_q s name args kwargs).2) s /\
     last (calls (evs res)) = Some (args, kwargs, Raise e) /\
     Forall (fun c => c.1 = (args, kwargs)) (calls (evs res)) /\
     Z.of_nat (count is_call (evs res)) = mr + 1 /\
     Z.of_nat (count is_retry (evs res)) = mr /\
     count is_split (evs res) = 0%nat) /\
  ((forall s', exists e,
       (func s' args kwargs).1 = Raise e /\ oversized e = false) ->
   exists res e s_last,
     Retry._attempt_query func fuel args kwargs chunk_dim mr 0 s = Some res /\
     out res = Raise e /\
     func s_last args kwargs = (Raise e, st res) /\
     st res = Nat.iter (Datatypes.S (Z.to_nat mr))
                (fun s => (func s args kwargs).2) s /\
     last (calls (evs res)) = Some (args, kwargs, Raise e) /\
     Forall (fun c => c.1 = (args, kwargs)) (calls (evs res)) /\
     Z.of_nat (count is_call (evs res)) = mr + 1 /\
     Z.of_nat (count is_retry (evs res)) = mr /\
     count is_split (evs res) = 0%nat).
Proof.
  intros Hmr Hfuel. split; intros Hfail.
  - destruct (exhaust_retries call_q name args dims mr kwargs) with (fuel := fuel) (r := 0) (s := s)
      as (res & e & s_last & H); [|lia|lia|].
    + intros s'. destruct (Hfail s') as (e & He & Ho). exists e. split; [done|].
      by apply find_split_not_oversized.
    + exists res, e, s_last. by replace (mr - 0) with mr in H by lia.
  - rewrite (attempt_query_as_q_call func fuel name).
    destruct (exhaust_retries (fun s _ a k => func s a k) name args [chunk_dim] mr kwargs)
      with (fuel := fuel) (r := 0) (s := s) as (res & e & s_last & H); [|lia|lia|].
    + intros s'. destruct (Hfail s') as (e & He & Ho). exists e. split; [done|].
      by apply find_split_not_oversized.
    + exists res, e, s_last. by replace (mr - 0) with mr in H by lia.
Qed.

Lemma retry_termination_witness :
  0 <= 2 /\ 2 < Z.of_nat 3 /\
  (forall s' : nat, exists e,
      (closed_conn s' "getData" [] ∅).1 = Raise e /\ oversized e = false) /\
  exists res,
    Retry2._attempt_q_call closed_conn 3 "getData" [] ∅ ["symbols"] 2 0 0%nat = Some res /\
    Z.of_nat (count is_call (evs res)) = 2 + 1.
Proof.
  assert (forall s' : nat, exists e,
      (closed_conn s' "getData" [] ∅).1 = Raise e /\ oversized e = false) as Hf.
  { intros s'. eexists. split; reflexivity. }
  split; [lia|]. split; [lia|]. split; [exact Hf|].
  destruct (proj1 (retry_termination closed_conn (fun s a k => closed_conn s "" a k)
              "getData" [] ["symbols"] "symbols" 2 ∅ 0%nat 3
              ltac:(lia) ltac:(lia)) Hf)
    as (res & e & s_last & Hrun & _ & _ & _ & _ & _ & Hcalls & _).
  exists res. split; [exact Hrun | exact Hcalls].
Defined.

(** C4. No over-splitting: a chunk dimension holding a sequence of length
    0 or 1 is never split, whatever the error text.  Neither executor's
    guard accepts it, the loop of [Retry2.py] never picks it, no split of
    it occurs anywhere in a run, and a failed call goes to the retry
    (while retries remain) or gives up: in [Retry.py] always, in
    [Retry2.py] when no declared dimension holds more than one element. *)
Theorem no_over_splitting {S : Type}
    (call_q : S -> string -> list value -> kwargs_t -> outcome * S)
    (func : S -> list value -> kwargs_t -> outcome * S)
    (name : string) (args : list value) (dims : list string) (mr : Z)
    (kwargs : kwargs_t) (d : string) (items : list value) :
  kwargs !! d = Some (VList items) -> (length items <= 1)%nat ->
  (forall e, Retry.splittable kwargs d e = None /\
             Retry2.splittable kwargs d e = None /\
             forall its, Retry2.find_split dims kwargs e <> Some (d, its)) /\
  (forall fuel r s res,
      Retry2._attempt_q_call call_q fuel name args kwargs dims mr r s = Some res ->
      count (is_split_on d) (evs res) = 0%nat) /\
  (forall fuel r s e s1,
      func s args kwargs = (Raise e, s1) ->
      Retry._attempt_query func (Datatypes.S fuel) args kwargs d mr r s =
        if r <? mr
        then option_map
               (emit [EvCall args kwargs (Raise e); EvRetry (r + 1) mr e; EvSleep 1])
               (Retry._attempt_query func fuel args kwargs d mr (r + 1) s1)
        else Some (Run (Raise e) s1 [EvCall args kwargs (Raise e); EvGiveUp])) /\
  (forall fuel r s e s1,
      Forall (fun d' => (dim_len kwargs d' <= 1)%nat) dims ->
      call_q s name args kwargs = (Raise e, s1) ->
      Retry2._attempt_q_call call_q (Datatypes.S fuel) name args kwargs dims mr r s =
        if r <? mr
        then option_map
               (emit [EvCall args kwargs (Raise e); EvRetry (r + 1) mr e; EvSleep 1])
               (Retry2._attempt_q_call call_q fuel name args kwargs dims mr (r + 1) s1)
        else Some (Run (Raise e) s1 [EvCall args kwargs (Raise e); EvGiveUp])).
Proof.
  intros Hd Hlen. split_and!.
  - intros e. rewrite splittable_same.
    pose proof (splittable_short kwargs d e items Hd Hlen) as Hs.
    split_and!; [done|done|].
    intros its (pre & post & _ & Hq & _)%find_split_Some. congruence.
  - intros fuel r s res. by apply run_no_split_on with (items := items).
  - intros fuel r s e s1 Hf. cbn [Retry._attempt_query]. rewrite Hf.
    by rewrite splittable_same, (splittable_short kwargs d e items Hd Hlen).
  - intros fuel r s e s1 Hall Hc. cbn [Retry2._attempt_q_call]. rewrite Hc.
    by rewrite (find_split_all_short dims kwargs e Hall).
Qed.

Lemma no_over_splitting_witness :
  ({["symbols" := VList [VStr "AAPL"]]} : kwargs_t) !! "symbols"
    = Some (VList [VStr "AAPL"]) /\
  (length [VStr "AAPL"] <= 1)%nat /\
  Retry.splittable {["symbols" := VList [VStr "AAPL"]]} "symbols"
    (Exn ValueError "Query too big") = None.
Proof.
  assert (({["symbols" := VList [VStr "AAPL"]]} : kwargs_t) !! "symbols"
            = Some (VList [VStr "AAPL"])) as H1 by (vm_compute; reflexivity).
  assert (length [VStr "AAPL"] <= 1)%nat as H2 by (simpl; lia).
  split; [exact H1|]. split; [exact H2|].
  exact (proj1 (proj1 (no_over_splitting Retry.run_query_conn Retry.run_query_body
                         "getData" [] ["symbols"] 2 _ "symbols" _ H1 H2)
                      (Exn ValueError "Query too big"))).
Defined.

(** C5. Frame assembly under fragmentation: eight header bytes are read
    as a big-endian unsigned 64-bit length [L]; however the stream is cut
    into non-empty deliveries, the read returns exactly the [L] payload
    bytes that follow the header and leaves what comes after them unread;
    and when the peer closes before the header or the payload is complete
    the read fails with a transport-fatal error. *)
Theorem frame_assembly (L : Z) (payload extra : list byte) (buffer_size : Z)
    (frags : ArrowClient.socket) (fuel : nat) :
  0 <= L < 2 ^ 64 -> Z.of_nat (length payload) = L -> 0 < buffer_size ->
  Forall (fun d => d <> []) frags ->
  (8 <= fuel)%nat -> L <= Z.of_nat fuel ->
  (forall b0 b1 b2 b3 b4 b5 b6 b7 : byte,
     let v b := Z.of_N (Byte.to_N b) in
     ArrowClient.unpack_Q [b0; b1; b2; b3; b4; b5; b6; b7] =
       Some (v b0 * 2 ^ 56 + v b1 * 2 ^ 48 + v b2 * 2 ^ 40 + v b3 * 2 ^ 32 +
             v b4 * 2 ^ 24 + v b5 * 2 ^ 16 + v b6 * 2 ^ 8 + v b7)) /\
  length (ArrowClient.pack_Q L) = 8%nat /\
  ArrowClient.unpack_Q (ArrowClient.pack_Q L) = Some L /\
  (concat frags = ArrowClient.pack_Q L ++ payload ++ extra ->
   exists rest,
     ArrowClient.fetch_frame fuel buffer_size frags
       = Some (ArrowClient.Bytes payload rest) /\
     concat rest = extra) /\
  (forall missing,
     missing <> [] ->
     concat frags ++ missing = ArrowClient.pack_Q L ++ payload ->
     exists e,
       ArrowClient.fetch_frame fuel buffer_size frags
         = Some (ArrowClient.Failed e []) /\
       transport_fatal e /\
       e = if (length (concat frags) <? 8)%nat
           then ArrowClient.header_closed else ArrowClient.data_closed).
Proof.
  intros HL Hlen Hbs Hfr Hf8 HfL.
  pose proof (length_be_bytes 8 L) as Hpk. fold (ArrowClient.pack_Q L) in Hpk.
  pose proof (unpack_pack L HL) as Hun.
  pose proof (read_header_spec fuel [] frags Hfr ltac:(cbn; lia) ltac:(cbn; lia)) as Hh.
  cbn [length app] in Hh. rewrite Nat.sub_0_r in Hh.
  split_and!; [|done|done| |].
  - intros. unfold ArrowClient.unpack_Q, ArrowClient.be_value.
    cbn [length Nat.eqb fold_left]. f_equal. subst v. cbv beta. ring.
  - intros Hcat. rewrite Hcat in Hh.
    rewrite decide_True in Hh by (rewrite length_app; lia).
    destruct Hh as (rest & Hrd & Hrest & Hne).
    rewrite take_app_length' in Hrd by done.
    rewrite drop_app_length' in Hrest by done.
    unfold ArrowClient.fetch_frame. rewrite Hrd, Hun.
    pose proof (read_payload_spec fuel buffer_size [] L rest Hbs Hne ltac:(lia) ltac:(lia))
      as Hp.
    rewrite Hrest in Hp. rewrite decide_True in Hp by (rewrite length_app; lia).
    destruct Hp as (rest' & Hrd' & Hrest' & _). cbn [app] in Hrd'.
    rewrite take_app_length' in Hrd' by lia.
    rewrite drop_app_length' in Hrest' by lia.
    by exists rest'.
  - intros missing Hm Hcat.
    assert (length (concat frags) + length missing = 8 + length payload)%nat as Hsum.
    { apply (f_equal length) in Hcat. rewrite !length_app in Hcat. lia. }
    assert (0 < length missing)%nat by (destruct missing; [done|cbn; lia]).
    unfold ArrowClient.fetch_frame.
    destruct (decide (8 <= length (concat frags))%nat) as [Hge|Hlt].
    + destruct Hh as (rest & Hrd & Hrest & Hne).
      assert (take 8 (concat frags) = ArrowClient.pack_Q L) as Hhd.
      { rewrite <- (take_app_le _ missing) by done. rewrite Hcat.
        by apply take_app_length'. }
      rewrite Hhd in Hrd. rewrite Hrd, Hun.
      pose proof (read_payload_spec fuel buffer_size [] L rest Hbs Hne ltac:(lia) ltac:(lia))
        as Hp.
      rewrite Hrest, length_drop in Hp. rewrite decide_False in Hp by lia.
      rewrite Hp. exists ArrowClient.data_closed.
      assert ((length (concat frags) <? 8)%nat = false) as -> by (apply Nat.ltb_ge; lia).
      split_and!; [done|by right|done].
    + rewrite Hh. exists ArrowClient.header_closed.
      assert ((length (concat frags) <? 8)%nat = true) as -> by (apply Nat.ltb_lt; lia).
      split_and!; [done|by left|done].
Qed.

Lemma frame_assembly_witness :
  let payload := [x41; x42; x43] in
  let frags := map (fun b => [b]) (ArrowClient.pack_Q 3 ++ payload ++ [x44]) in
  0 <= 3 < 2 ^ 64 /\ Z.of_nat (length payload) = 3 /\ 0 < 16384 /\
  Forall (fun d : list byte => d <> []) frags /\
  (8 <= 8)%nat /\ 3 <= Z.of_nat 8 /\
  concat frags = ArrowClient.pack_Q 3 ++ payload ++ [x44] /\
  exists rest,
    ArrowClient.fetch_frame 8 16384 frags = Some (ArrowClient.Bytes payload rest) /\
    concat rest = [x44].
Proof.
  cbv zeta.
  assert (Forall (fun d : list byte => d <> [])
            (map (fun b => [b]) (ArrowClient.pack_Q 3 ++ [x41; x42; x43] ++ [x44]))) as Hfr.
  { apply Forall_forall. intros d (b & -> & _)%list_elem_of_fmap. done. }
  assert (concat (map (fun b => [b]) (ArrowClient.pack_Q 3 ++ [x41; x42; x43] ++ [x44]))
          = ArrowClient.pack_Q 3 ++ [x41; x42; x43] ++ [x44]) as Hcat by reflexivity.
  split; [lia|]. split; [reflexivity|]. split; [lia|]. split; [exact Hfr|].
  split; [lia|]. split; [lia|]. split; [exact Hcat|].
  exact (proj1 (proj2 (proj2 (proj2
    (frame_assembly 3 [x41; x42; x43] [x44] 16384 _ 8
       ltac:(lia) ltac:(reflexivity) ltac:(lia) Hfr ltac:(lia) ltac:(lia))))) Hcat).
Defined.



(** C7, as stated, fails: on a connection whose every call ends in the
    transport's "closed before header" error, the executor with
    [max_retries = 1] calls twice, with a retry line and a pause in
    between, before the error reaches the caller. *)
Lemma transport_fatal_is_retried :
  exists res,
    (closed_conn 0 "getData" [] ∅).1 = Raise ArrowClient.header_closed /\
    transport_fatal ArrowClient.header_closed /\
    Retry2._attempt_q_call closed_conn 2 "getData" [] ∅ ["symbols"] 1 0 0%nat = Some res /\
    evs res = [EvCall [] ∅ (Raise ArrowClient.header_closed);
               EvRetry 1 1 ArrowClient.header_closed; EvSleep 1;
               EvCall [] ∅ (Raise ArrowClient.header_closed); EvGiveUp] /\
    st res = 2%nat /\
    ~ propagates_immediately res.
Proof.
  eexists. split; [reflexivity|]. split; [by left|].
  split; [vm_compute; reflexivity|]. split; [reflexivity|]. split; [reflexivity|].
  intros (H & _). vm_compute in H. discriminate.
Qed.

(** C7, amended. A transport-fatal error is never split by either
    executor, its text lacking the marker; apart from that it is handled
    like any other error: the call is retried while
    [retries < max_retries], and only when the budget is spent does the
    error reach the caller, unchanged, after that single call.  The
    transport itself raises it at the first empty read, without trying
    again. *)
Theorem transport_fatal_handling {S : Type}
    (call_q : S -> string -> list value -> kwargs_t -> outcome * S)
    (name : string) (args : list value) (dims : list string) (mr : Z)
    (fuel : nat) (kwargs : kwargs_t) (r : Z) (s : S) (e : exn) (s1 : S) :
  transport_fatal e ->
  call_q s name args kwargs = (Raise e, s1) ->
  oversized e = false /\
  Retry2.find_split dims kwargs e = None /\
  (forall d, Retry.splittable kwargs d e = None) /\
  (r < mr ->
     Retry2._attempt_q_call call_q (Datatypes.S fuel) name args kwargs dims mr r s =
       option_map
         (emit [EvCall args kwargs (Raise e); EvRetry (r + 1) mr e; EvSleep 1])
         (Retry2._attempt_q_call call_q fuel name args kwargs dims mr (r + 1) s1)) /\
  (mr <= r ->
     exists res,
       Retry2._attempt_q_call call_q (Datatypes.S fuel) name args kwargs dims mr r s
         = Some res /\
       out res = Raise e /\ st res = s1 /\
       evs res = [EvCall args kwargs (Raise e); EvGiveUp] /\
       propagates_immediately res) /\
  (forall n header,
     (length header < 8)%nat ->
     ArrowClient.read_header (Datatypes.S n) header []
       = Some (ArrowClient.Failed ArrowClient.header_closed [])) /\
  (forall n buffer_size data bytes_remaining,
     0 <= buffer_size -> 0 < bytes_remaining ->
     ArrowClient.read_payload (Datatypes.S n) buffer_size data bytes_remaining []
       = Some (ArrowClient.Failed ArrowClient.data_closed [])).
Proof.
  intros Hfatal Hcall.
  assert (oversized e = false) as Ho by (by destruct Hfatal as [-> | ->]).
  pose proof (find_split_not_oversized dims kwargs e Ho) as F.
  split_and!; [done|done| | | | |].
  - intros d. unfold Retry.splittable. by rewrite Ho.
  - intros L. by apply attempt_retry.
  - intros L. rewrite (attempt_fail _ _ _ _ _ _ _ _ _ _ _ Hcall F L).
    eexists. split; [reflexivity|]. by cbn.
  - intros n header Hh. cbn [ArrowClient.read_header].
    assert ((Z.of_nat (length header) <? 8) = true) as -> by lia.
    unfold ArrowClient.recv.
    by assert ((8 - Z.of_nat (length header) <? 0) = false) as -> by lia.
  - intros n bs data rem Hbs Hrem. cbn [ArrowClient.read_payload].
    assert ((0 <? rem) = true) as -> by lia.
    unfold ArrowClient.recv.
    by assert ((Z.min bs rem <? 0) = false) as -> by lia.
Qed.

Lemma transport_fatal_handling_witness :
  transport_fatal ArrowClient.header_closed /\
  closed_conn 1 "getData" [] ∅ = (Raise ArrowClient.header_closed, 2%nat) /\
  exists res,
    Retry2._attempt_q_call closed_conn 1 "getData" [] ∅ ["symbols"] 1 1 1%nat = Some res /\
    out res = Raise ArrowClient.header_closed /\ st res = 2%nat /\
    evs res = [EvCall [] ∅ (Raise ArrowClient.header_closed); EvGiveUp] /\
    propagates_immediately res.
Proof.
  assert (transport_fatal ArrowClient.header_closed) as H1 by (by left).
  assert (closed_conn 1 "getData" [] ∅ = (Raise ArrowClient.header_closed, 2%nat)) as H2
    by reflexivity.
  split; [exact H1|]. split; [exact H2|].
  exact (proj1 (proj2 (proj2 (proj2 (proj2
    (transport_fatal_handling closed_conn "getData" [] ["symbols"] 1 0 ∅ 1 1%nat
       ArrowClient.header_closed 2%nat H1 H2))))) ltac:(lia)).
Defined.

(** C8. Frame of a split: the two keyword-argument snapshots of a split
    on [d] agree with the parent's on every key other than [d], hold the
    left and the right half at [d], and both branches are run with the
    same function and the same positional arguments; so every call of a
    run receives the positional arguments unchanged. *)
Theorem split_frame {S : Type}
    (call_q : S -> string -> list value -> kwargs_t -> outcome * S)
    (func : S -> list value -> kwargs_t -> outcome * S)
    (name : string) (args : list value) (dims : list string) (mr : Z)
    (fuel : nat) (kwargs : kwargs_t) (r : Z) (d : string) (items : list value) :
  let kwargs1 := (split_kwargs kwargs d items).1 in
  let kwargs2 := (split_kwargs kwargs d items).2 in
  let left := take (length items / 2) items in
  let right := drop (length items / 2) items in
  (forall key, key <> d ->
     kwargs1 !! key = kwargs !! key /\ kwargs2 !! key = kwargs !! key) /\
  kwargs1 !! d = Some (VList left) /\
  kwargs2 !! d = Some (VList right) /\
  (forall s e s1,
     call_q s name args kwargs = (Raise e, s1) ->
     Retry2.find_split dims kwargs e = Some (d, items) ->
     Retry2._attempt_q_call call_q (Datatypes.S fuel) name args kwargs dims mr r s =
       split_then_merge [EvCall args kwargs (Raise e); EvSplit d items left right]
         (Retry2._attempt_q_call call_q fuel name args kwargs1 dims mr r)
         (Retry2._attempt_q_call call_q fuel name args kwargs2 dims mr r) s1) /\
  (forall s e s1,
     func s args kwargs = (Raise e, s1) ->
     Retry.splittable kwargs d e = Some items ->
     Retry._attempt_query func (Datatypes.S fuel) args kwargs d mr r s =
       split_then_merge [EvCall args kwargs (Raise e); EvSplit d items left right]
         (Retry._attempt_query func fuel args kwargs1 d mr r)
         (Retry._attempt_query func fuel args kwargs2 d mr r) s1) /\
  (forall s res,
     Retry2._attempt_q_call call_q fuel name args kwargs dims mr r s = Some res ->
     Forall (fun c => c.1.1 = args /\
                      forall key, key ∉ dims -> c.1.2 !! key = kwargs !! key)
            (calls (evs res))).
Proof.
  cbv zeta. unfold split_kwargs, halves, mid. cbn [fst snd]. split_and!.
  - intros key Hne. by rewrite !lookup_insert_ne.
  - apply lookup_insert_eq.
  - apply lookup_insert_eq.
  - intros s e s1 Hc F. cbn [Retry2._attempt_q_call]. by rewrite Hc, F.
  - intros s e s1 Hc F. cbn [Retry._attempt_query]. by rewrite Hc, F.
  - intros s res. apply run_calls_frame.
Qed.

Lemma split_frame_witness :
  Retry.run_query_body [] [] Retry.example_kwargs
    = (Raise (Exn ValueError "Query too big"), []) /\
  Retry.splittable Retry.example_kwargs "symbols" (Exn ValueError "Query too big")
    = Some Retry.symbols_list /\
  Retry._attempt_query Retry.run_query_body 2 [] Retry.example_kwargs "symbols" 2 0 [] =
    split_then_merge
      [EvCall [] Retry.example_kwargs (Raise (Exn ValueError "Query too big"));
       EvSplit "symbols" Retry.symbols_list
         (take (length Retry.symbols_list / 2) Retry.symbols_list)
         (drop (length Retry.symbols_list / 2) Retry.symbols_list)]
      (Retry._attempt_query Retry.run_query_body 1 []
         (split_kwargs Retry.example_kwargs "symbols" Retry.symbols_list).1 "symbols" 2 0)
      (Retry._attempt_query Retry.run_query_body 1 []
         (split_kwargs Retry.example_kwargs "symbols" Retry.symbols_list).2 "symbols" 2 0)
      [].
Proof.
  assert (Retry.run_query_body [] [] Retry.example_kwargs
    = (Raise (Exn ValueError "Query too big"), [])) as H1 by (vm_compute; reflexivity).
  assert (Retry.splittable Retry.example_kwargs "symbols" (Exn ValueError "Query too big")
    = Some Retry.symbols_list) as H2 by (vm_compute; reflexivity).
  split; [exact H1|]. split; [exact H2|].
  exact (proj1 (proj2 (proj2 (proj2 (proj2
    (split_frame Retry.run_query_conn Retry.run_query_body "getData" []
       ["symbols"] 2 1 Retry.example_kwargs 0 "symbols" Retry.symbols_list)))))
    [] _ [] H1 H2).
Defined.

(** C9. The end-to-end scenario: six symbols, a store refusing more than
    three, [chunk_dim = symbols], [max_retries = 2].  The run makes three
    calls: the full list is refused, it is split once into
    [AAPL, GOOG, MSFT] and [AMZN, FB, TSLA], each half is answered at its
    first attempt, and the result is the left answer followed by the
    right one.  No retry and no second split occur. *)
Theorem end_to_end_scenario (fuel : nat) (args : list value)
    (printed : list (list value)) :
  let left := map VStr ["AAPL"; "GOOG"; "MSFT"] in
  let right := map VStr ["AMZN"; "FB"; "TSLA"] in
  let kwargs1 := <["symbols" := VList left]> Retry.example_kwargs in
  let kwargs2 := <["symbols" := VList right]> Retry.example_kwargs in
  let row s := VDict [("symbol", s); ("data", VStr "dummy data")] in
  let dates := [VStr "2025-01-01"; VStr "2025-01-31"; VStr "09:30"; VStr "16:00"] in
  Retry.symbols_list = left ++ right /\
  Retry.run_query_body printed args kwargs1
    = (Return (VList (map row left)), printed ++ [VList left :: dates]) /\
  Retry.run_query_body (printed ++ [VList left :: dates]) args kwargs2
    = (Return (VList (map row right)),
       (printed ++ [VList left :: dates]) ++ [VList right :: dates]) /\
  Retry.run_query (2 + fuel) args Retry.example_kwargs printed =
    Some (Run (Return (VList (map row left ++ map row right)))
              ((printed ++ [VList left :: dates]) ++ [VList right :: dates])
              [EvCall args Retry.example_kwargs (Raise (Exn ValueError "Query too big"));
               EvSplit "symbols" Retry.symbols_list left right;
               EvCall args kwargs1 (Return (VList (map row left)));
               EvCall args kwargs2 (Return (VList (map row right)))]).
Proof.
  cbv zeta. split; [reflexivity|].
  assert (forall l p, (length l <= 3)%nat ->
            Retry.run_query_body p args (<["symbols" := VList l]> Retry.example_kwargs)
            = (Return (VList (map (fun s => VDict [("symbol", s); ("data", VStr "dummy data")]) l)),
               p ++ [[VList l; VStr "2025-01-01"; VStr "2025-01-31"; VStr "09:30"; VStr "16:00"]]))
    as Hok.
  { intros l p Hl. unfold Retry.run_query_body, Retry.kwargs_get.
    rewrite lookup_insert_eq. rewrite !lookup_insert_ne by done.
    cbn [default from_option id].
    assert ((3 <? length l)%nat = false) as -> by (apply Nat.ltb_ge; lia).
    reflexivity. }
  split; [apply Hok; simpl; lia|]. split; [apply Hok; simpl; lia|].
  unfold Retry.run_query, Retry.wrapper.
  change (2 + fuel)%nat with (Datatypes.S (Datatypes.S fuel)).
  rewrite (attempt_query_split Retry.run_query_body (Datatypes.S fuel) args
             Retry.example_kwargs "symbols" 2 0 printed
             (Exn ValueError "Query too big") printed Retry.symbols_list);
    [|reflexivity|vm_compute; reflexivity].
  unfold split_kwargs, split_then_merge.
  change (halves Retry.symbols_list).1 with (map VStr ["AAPL"; "GOOG"; "MSFT"]).
  change (halves Retry.symbols_list).2 with (map VStr ["AMZN"; "FB"; "TSLA"]).
  cbn [fst snd].
  assert (forall l p, (length l <= 3)%nat ->
            Retry._attempt_query Retry.run_query_body (Datatypes.S fuel) args
              (<["symbols" := VList l]> Retry.example_kwargs) "symbols" 2 0 p
            = Some (Run (Return (VList (map (fun s => VDict [("symbol", s); ("data", VStr "dummy data")]) l)))
                        (p ++ [[VList l; VStr "2025-01-01"; VStr "2025-01-31"; VStr "09:30"; VStr "16:00"]])
                        [EvCall args (<["symbols" := VList l]> Retry.example_kwargs)
                           (Return (VList (map (fun s => VDict [("symbol", s); ("data", VStr "dummy data")]) l)))]))
    as Hrun.
  { intros l p Hl. cbn [Retry._attempt_query]. by rewrite Hok. }
  rewrite Hrun by (simpl; lia). cbn [out st evs].
  rewrite Hrun by (simpl; lia). reflexivity.
Qed.

(** C10. Termination: both executors finish, whatever the wrapped
    function returns or raises, once the fuel reaches [fuel_bound].  The
    bound drops at every recursive call: a split needs at least two
    elements and leaves each half strictly shorter, a retry moves the
    counter one step closer to [max_retries]. *)
Theorem executor_terminates {S : Type}
    (call_q : S -> string -> list value -> kwargs_t -> outcome * S)
    (func : S -> list value -> kwargs_t -> outcome * S)
    (name : string) (args : list value) (dims : list string) (chunk_dim : string)
    (mr : Z) (kwargs : kwargs_t) (r : Z) (s : S) :
  (forall fuel, (fuel_bound dims kwargs mr r <= fuel)%nat ->
     exists res,
       Retry2._attempt_q_call call_q fuel name args kwargs dims mr r s = Some res) /\
  (forall fuel, (fuel_bound [chunk_dim] kwargs mr r <= fuel)%nat ->
     exists res,
       Retry._attempt_query func fuel args kwargs chunk_dim mr r s = Some res) /\
  (forall e d items,
     Retry2.find_split dims kwargs e = Some (d, items) ->
     (2 <= length items)%nat /\
     (length (halves items).1 < length items)%nat /\
     (length (halves items).2 < length items)%nat /\
     (fuel_bound dims (split_kwargs kwargs d items).1 mr r
        < fuel_bound dims kwargs mr r)%nat /\
     (fuel_bound dims (split_kwargs kwargs d items).2 mr r
        < fuel_bound dims kwargs mr r)%nat) /\
  (r < mr ->
     (fuel_bound dims kwargs mr (r + 1) < fuel_bound dims kwargs mr r)%nat).
Proof.
  split_and!.
  - intros fuel. apply attempt_terminates.
  - intros fuel Hle. rewrite (attempt_query_as_q_call func fuel name).
    by apply attempt_terminates.
  - intros e d items F.
    destruct (find_split_weight dims _ _ _ _ F) as [W1 W2].
    apply find_split_in in F as (_ & _ & Hlen & _).
    destruct (halves_shorter items Hlen) as [H1 H2].
    unfold fuel_bound. split_and!; lia.
  - intros L. unfold fuel_bound. lia.
Qed.

Lemma executor_terminates_witness :
  (fuel_bound ["symbols"] Retry.example_kwargs 2 0 <= 9)%nat /\
  exists res,
    Retry._attempt_query Retry.run_query_body 9 [] Retry.example_kwargs "symbols" 2 0 []
      = Some res.
Proof.
  assert (fuel_bound ["symbols"] Retry.example_kwargs 2 0 <= 9)%nat as H
    by (vm_compute; lia).
  split; [exact H|].
  exact (proj1 (proj2 (executor_terminates Retry.run_query_conn Retry.run_query_body
                         "getData" [] ["symbols"] "symbols" 2 Retry.example_kwargs 0 []))
               9%nat H).
Defined.

(** * Further properties *)

(** ** Accounting and the origin of a raised error *)

Lemma slept_app a b : slept (a ++ b) = slept a + slept b.
Proof.
  induction a as [|ev a IH]; [done|].
  destruct ev; cbn [app slept]; lia.
Qed.

Section Accounting.
Context {S : Type} (call_q : S -> string -> list value -> kwargs_t -> outcome * S).
Context (name : string) (args : list value) (dims : list string) (mr : Z).

Lemma run_balanced fuel kwargs r s res :
  Retry2._attempt_q_call call_q fuel name args kwargs dims mr r s = Some res ->
  balanced (evs res) /\
  match out res with
  | Return _ => complete (evs res)
  | Raise _ => True
  end.
Proof.
  revert fuel kwargs r s res.
  apply (attempt_ind call_q name args dims mr
           (fun _ _ _ res =>
              balanced (evs res) /\
              match out res with
              | Return _ => complete (evs res)
              | Raise _ => True
              end));
    unfold balanced, complete; cbn [emit evs out].
  - intros kwargs r s v s1 _. cbn. split_and!; lia.
  - intros kwargs r s e s1 _ _ _. split; [cbn; split_and!; lia|done].
  - intros kwargs r s e s1 r1 _ _ _ ((B1 & B2 & B3 & B4) & Hout).
    rewrite !count_app, slept_app. cbn. split; [split_and!; lia|].
    destruct (out r1) as [v1|e1]; [|done]. destruct Hout. split; lia.
  - intros kwargs r s e s1 d items r1 e1 _ _ ((B1 & B2 & B3 & B4) & Hout) Ho.
    rewrite !count_app, slept_app. cbn. split; [split_and!; lia|]. by rewrite Ho.
  - intros kwargs r s e s1 d items r1 v1 r2 _ _
      ((B1 & B2 & B3 & B4) & Hout1) Ho ((C1 & C2 & C3 & C4) & Hout2).
    rewrite Ho in Hout1. destruct Hout1 as [G1 E1].
    rewrite !count_app, !slept_app. cbn. split; [split_and!; lia|].
    destruct (out r2) as [v2|e2]; [|done].
    destruct Hout2 as [G2 E2]. destruct (py_add v1 v2) as [v|e']; [|done].
    split; lia.
Qed.

Lemma py_add_error v1 v2 e : py_add v1 v2 = Raise e -> exn_cls e = TypeError.
Proof. destruct v1, v2; cbn; intros [= <-]; reflexivity. Qed.

Lemma run_returned_no_giveup fuel kwargs r s res v :
  Retry2._attempt_q_call call_q fuel name args kwargs dims mr r s = Some res ->
  out res = Return v -> count is_giveup (evs res) = 0%nat.
Proof.
  intros Hrun Ho. destruct (run_balanced _ _ _ _ _ Hrun) as [_ H].
  rewrite Ho in H. by destruct H.
Qed.

Lemma run_error_origin fuel kwargs r s res e :
  Retry2._attempt_q_call call_q fuel name args kwargs dims mr r s = Some res ->
  out res = Raise e ->
  gave_up_on res e \/
  (count is_giveup (evs res) = 0%nat /\
   merge_failed
     (fun fuel kw r s => Retry2._attempt_q_call call_q fuel name args kw dims mr r s)
     res e).
Proof.
  revert kwargs r s res e.
  induction fuel as [|fuel IH]; intros kwargs r s res e; [done|].
  assert (forall pre (r1 : run S),
            count is_giveup pre = 0%nat ->
            (gave_up_on r1 e \/
             (count is_giveup (evs r1) = 0%nat /\
              merge_failed
                (fun fuel kw r s =>
                   Retry2._attempt_q_call call_q fuel name args kw dims mr r s) r1 e)) ->
            gave_up_on (emit pre r1) e \/
            (count is_giveup (evs (emit pre r1)) = 0%nat /\
             merge_failed
               (fun fuel kw r s =>
                  Retry2._attempt_q_call call_q fuel name args kw dims mr r s)
               (emit pre r1) e)) as Hlift.
  { intros pre r1 Hpre [(before & a & k & Hev)|[Hg Hm]].
    - left. exists (pre ++ before), a, k. cbn [emit evs].
      by rewrite Hev, (assoc_L (++)).
    - right. split; [cbn [emit evs]; rewrite count_app; lia|].
      destruct Hm as (f & kw & d & items & r' & s1 & ra & rb & v1 & v2 & before
                      & E1 & O1 & E2 & O2 & Hadd & Hev & Hst).
      exists f, kw, d, items, r', s1, ra, rb, v1, v2, (pre ++ before).
      split_and!; try done. cbn [emit evs]. by rewrite Hev, (assoc_L (++)). }
  destruct (call_q s name args kwargs) as [[v|e0] s1] eqn:C.
  { rewrite (attempt_return _ _ _ _ _ _ _ _ _ _ _ C). intros [= <-]. done. }
  destruct (Retry2.find_split dims kwargs e0) as [[d items]|] eqn:F.
  - rewrite (attempt_split _ _ _ _ _ _ _ _ _ _ _ _ _ C F).
    cbv zeta. unfold split_then_merge.
    destruct (Retry2._attempt_q_call call_q fuel name args
                (split_kwargs kwargs d items).1 dims mr r s1)
      as [r1|] eqn:E1; [|done].
    destruct (out r1) as [v1|e1] eqn:O1.
    + destruct (Retry2._attempt_q_call call_q fuel name args
                  (split_kwargs kwargs d items).2 dims mr r (st r1))
        as [r2|] eqn:E2; [|done].
      pose proof (run_returned_no_giveup _ _ _ _ _ _ E1 O1) as G1.
      destruct (out r2) as [v2|e2] eqn:O2.
      * intros [= <-] Hadd. cbn [out] in Hadd. right. cbn [evs].
        pose proof (run_returned_no_giveup _ _ _ _ _ _ E2 O2) as G2.
        split; [rewrite !count_cons, count_app, G1, G2; by cbn|].
        exists fuel, kwargs, d, items, r, s1, r1, r2, v1, v2,
          [EvCall args kwargs (Raise e0);
           EvSplit d items (halves items).1 (halves items).2].
        split_and!; done.
      * intros [= <-] He. cbn [emit out] in He.
        apply Hlift; [rewrite !count_cons, G1; by cbn|]. by apply (IH _ _ _ _ _ E2).
    + intros [= <-] He. cbn [emit out] in He.
      apply Hlift; [done|]. by apply (IH _ _ _ _ _ E1).
  - destruct (Z.ltb_spec r mr) as [L|L].
    + rewrite (attempt_retry _ _ _ _ _ _ _ _ _ _ _ C F L).
      destruct (Retry2._attempt_q_call call_q fuel name args kwargs dims mr (r + 1) s1)
        as [r1|] eqn:E1; [|done].
      intros [= <-] He. cbn [emit out] in He.
      apply Hlift; [done|]. by apply (IH _ _ _ _ _ E1).
    + rewrite (attempt_fail _ _ _ _ _ _ _ _ _ _ _ C F L).
      intros [= <-] [= <-]. left. by exists [], args, kwargs.
Qed.
End Accounting.

(** ** A store that refuses long lists *)

Lemma answered_chunks_app d a b :
  answered_chunks d (a ++ b) = answered_chunks d a ++ answered_chunks d b.
Proof. apply omap_app. Qed.

Section Capped.
Context {S : Type} (call_q : S -> string -> list value -> kwargs_t -> outcome * S).
Context (name : string) (args : list value) (d : string) (rest : list string).
Context (mr : Z) (kw : kwargs_t) (cap : nat) (row : value -> value) (big : exn).

Hypothesis cap_pos : (1 <= cap)%nat.
Hypothesis big_oversized : oversized big = true.
Hypothesis store :
  forall s l, exists s',
    call_q s name args (<[d := VList l]> kw)
      = (if (cap <? length l)%nat then Raise big else Return (VList (map row l)), s').

Lemma capped_run fuel l r s :
  (length l < fuel)%nat ->
  exists res,
    Retry2._attempt_q_call call_q fuel name args (<[d := VList l]> kw)
      (d :: rest) mr r s = Some res /\
    out res = Return (VList (map row l)) /\
    count is_retry (evs res) = 0%nat /\
    concat (answered_chunks d (evs res)) = l /\
    Forall (fun c => (length c <= cap)%nat) (answered_chunks d (evs res)).
Proof.
  revert l r s. induction fuel as [|fuel IH]; intros l r s Hlt; [lia|].
  destruct (store s l) as [s1 Hc].
  destruct (cap <? length l)%nat eqn:E.
  - apply Nat.ltb_lt in E.
    assert (Retry2.find_split (d :: rest) (<[d := VList l]> kw) big = Some (d, l)) as F.
    { cbn [Retry2.find_split]. unfold Retry2.splittable.
      rewrite lookup_insert_eq, big_oversized.
      by assert ((1 <? length l)%nat = true) as -> by (apply Nat.ltb_lt; lia). }
    rewrite (attempt_split _ _ _ _ _ _ _ _ _ _ _ _ _ Hc F). cbv zeta.
    unfold split_kwargs. cbn [fst snd]. rewrite !insert_insert_eq.
    destruct (halves_shorter l ltac:(lia)) as [H1 H2].
    destruct (IH (halves l).1 r s1 ltac:(lia)) as (r1 & E1 & O1 & N1 & C1 & A1).
    destruct (IH (halves l).2 r (st r1) ltac:(lia)) as (r2 & E2 & O2 & N2 & C2 & A2).
    unfold split_then_merge. rewrite E1, O1, E2, O2.
    eexists. split; [reflexivity|]. cbn [out evs py_add].
    split_and!.
    + by rewrite <- map_app, halves_app.
    + rewrite !count_app, N1, N2. by cbn.
    + rewrite !answered_chunks_app, !concat_app, C1, C2. cbn. apply halves_app.
    + rewrite !answered_chunks_app. cbn. by apply Forall_app.
  - apply Nat.ltb_ge in E.
    rewrite (attempt_return _ _ _ _ _ _ _ _ _ _ _ Hc).
    eexists. split; [reflexivity|]. cbn [out evs].
    split_and!; [done|done| |].
    + cbn. rewrite lookup_insert_eq. cbn. apply app_nil_r.
    + cbn. rewrite lookup_insert_eq. cbn. by repeat constructor.
Qed.
End Capped.

Lemma run_query_body_symbols printed args kw l :
  exists printed',
    Retry.run_query_body printed args (<["symbols" := VList l]> kw)
      = (if (3 <? length l)%nat
         then Raise (Exn ValueError "Query too big")
         else Return (VList (map query_row l)), printed').
Proof.
  unfold Retry.run_query_body. rewrite lookup_insert_eq. cbn [default from_option id].
  destruct (3 <? length l)%nat; eauto.
Qed.

Lemma bound_twice_None b kwargs :
  kwargs !! "self" = None -> kwargs !! "func_name" = None ->
  DummyKdbConnection.bound_twice b kwargs = None.
Proof. intros Hs Hf. unfold DummyKdbConnection.bound_twice. by rewrite Hs, Hf. Qed.

Lemma dummy_call_q_symbols fmt sf printed name args kw l :
  kw !! "self" = None -> kw !! "func_name" = None ->
  DummyKdbConnection.too_long kw "date_range" = false ->
  DummyKdbConnection.too_long kw "time_range" = false ->
  exists printed',
    DummyKdbConnection.call_q fmt sf printed name args (<["symbols" := VList l]> kw)
      = (if (3 <? length l)%nat
         then Raise (Exn ValueError "Query too big")
         else Return (VList (map (DummyKdbConnection.result_row fmt name) l)), printed').
Proof.
  intros Hs Hf Hd Ht. unfold DummyKdbConnection.call_q, DummyKdbConnection.checked_keys.
  rewrite bound_twice_None by (by rewrite lookup_insert_ne).
  cbn [existsb]. unfold DummyKdbConnection.too_long in *.
  rewrite lookup_insert_eq, !lookup_insert_ne by done. rewrite Hd, Ht.
  destruct (3 <? length l)%nat; cbn; eauto.
Qed.

Lemma dummy_call_q_too_long fmt sf printed name args kwargs key dr :
  kwargs !! "self" = None -> kwargs !! "func_name" = None ->
  key ∈ DummyKdbConnection.checked_keys ->
  kwargs !! key = Some (VList dr) -> (3 < length dr)%nat ->
  DummyKdbConnection.call_q fmt sf printed name args kwargs
    = (Raise (Exn ValueError "Query too big"), printed).
Proof.
  intros Hs Hf Hkey Hk Hlen. unfold DummyKdbConnection.call_q.
  rewrite bound_twice_None by done.
  assert (existsb (DummyKdbConnection.too_long kwargs) DummyKdbConnection.checked_keys
          = true) as ->; [|done].
  apply existsb_exists. exists key. split; [by apply list_elem_of_In|].
  unfold DummyKdbConnection.too_long. rewrite Hk. by apply Nat.ltb_lt.
Qed.

Lemma dummy_never_answers fmt sf name args dims mr key dr fuel kwargs r s res :
  key ∈ DummyKdbConnection.checked_keys -> key ∉ dims -> (3 < length dr)%nat ->
  kwargs !! "self" = None -> kwargs !! "func_name" = None ->
  kwargs !! key = Some (VList dr) ->
  Retry2._attempt_q_call (DummyKdbConnection.call_q fmt sf) fuel name args kwargs
    dims mr r s = Some res ->
  out res = Raise (Exn ValueError "Query too big") /\
  count is_call (evs res) = count is_failed_call (evs res).
Proof.
  intros Hkey Hnot Hlen Hs Hf Hk Hrun. revert fuel kwargs r s res Hrun Hs Hf Hk.
  assert (forall (kwargs : kwargs_t) e d items,
            Retry2.find_split dims kwargs e = Some (d, items) ->
            kwargs !! "self" = None -> kwargs !! "func_name" = None ->
            kwargs !! key = Some (VList dr) ->
            forall h, (<[d := VList h]> kwargs) !! "self" = None /\
                      (<[d := VList h]> kwargs) !! "func_name" = None /\
                      (<[d := VList h]> kwargs) !! key = Some (VList dr)) as Hkeep.
  { intros kwargs e d items (Hin & Hd & _)%find_split_in Hs Hf Hk h.
    rewrite !lookup_insert_ne; [done| | |]; intros ->; congruence. }
  apply (attempt_ind (DummyKdbConnection.call_q fmt sf) name args dims mr
           (fun kwargs _ _ res =>
              kwargs !! "self" = None -> kwargs !! "func_name" = None ->
              kwargs !! key = Some (VList dr) ->
              out res = Raise (Exn ValueError "Query too big") /\
              count is_call (evs res) = count is_failed_call (evs res)));
    cbn [emit evs out].
  - intros kwargs r s v s1 Hc Hs Hf Hk.
    rewrite (dummy_call_q_too_long _ _ _ _ _ _ _ _ Hs Hf Hkey Hk Hlen) in Hc. done.
  - intros kwargs r s e s1 Hc _ _ Hs Hf Hk.
    rewrite (dummy_call_q_too_long _ _ _ _ _ _ _ _ Hs Hf Hkey Hk Hlen) in Hc.
    injection Hc as <- <-. done.
  - intros kwargs r s e s1 r1 _ _ _ IH Hs Hf Hk. destruct (IH Hs Hf Hk) as [-> Hn].
    split; [done|]. rewrite !count_app, Hn. done.
  - intros kwargs r s e s1 d items r1 e1 _ F IH _ Hs Hf Hk.
    destruct (Hkeep _ _ _ _ F Hs Hf Hk (halves items).1) as (K1 & K2 & K3).
    destruct (IH K1 K2 K3) as [-> Hn].
    split; [done|]. rewrite !count_app, Hn. done.
  - intros kwargs r s e s1 d items r1 v1 r2 _ F IH1 Ho _ Hs Hf Hk.
    destruct (Hkeep _ _ _ _ F Hs Hf Hk (halves items).1) as (K1 & K2 & K3).
    destruct (IH1 K1 K2 K3) as [Ho1 _]. congruence.
Qed.

(** X1. Accounting of a run, for both executors: every failed call is
    followed up by exactly one split, retry or give-up; the run gives up
    at most once; it sleeps one second per retry; it makes at most one
    call plus one per retry plus two per split.  When it returns, it never
    gave up and made exactly that many calls. *)
Theorem run_accounting {S : Type}
    (call_q : S -> string -> list value -> kwargs_t -> outcome * S)
    (func : S -> list value -> kwargs_t -> outcome * S)
    (name : string) (args : list value) (dims : list string) (chunk_dim : string)
    (mr : Z) (fuel : nat) (kwargs : kwargs_t) (r : Z) (s : S) :
  (forall res,
     Retry2._attempt_q_call call_q fuel name args kwargs dims mr r s = Some res ->
     balanced (evs res) /\ (forall v, out res = Return v -> complete (evs res))) /\
  (forall res,
     Retry._attempt_query func fuel args kwargs chunk_dim mr r s = Some res ->
     balanced (evs res) /\ (forall v, out res = Return v -> complete (evs res))).
Proof.
  assert (forall (c : S -> string -> list value -> kwargs_t -> outcome * S) ds res,
            Retry2._attempt_q_call c fuel name args kwargs ds mr r s = Some res ->
            balanced (evs res) /\ (forall v, out res = Return v -> complete (evs res)))
    as Hgen.
  { intros c ds res Hrun. destruct (run_balanced _ _ _ _ _ _ _ _ _ _ Hrun) as [Hb Ho].
    split; [done|]. intros v Hv. by rewrite Hv in Ho. }
  split; intros res Hrun.
  - by eapply Hgen.
  - rewrite (attempt_query_as_q_call func fuel name) in Hrun. by eapply Hgen.
Qed.

Lemma run_accounting_witness :
  exists res,
    Retry._attempt_query Retry.run_query_body 2 [] Retry.example_kwargs "symbols" 2 0 []
      = Some res /\
    balanced (evs res).
Proof.
  eexists. split; [vm_compute; reflexivity|].
  refine (proj1 (proj2 (run_accounting Retry.run_query_conn Retry.run_query_body
            "getData" [] ["symbols"] "symbols" 2 2 Retry.example_kwargs 0 []) _ _)).
  vm_compute; reflexivity.
Defined.

(** X2. Origin of a raised error, for both executors: when a run raises
    [e], either its last two events are a failed call and the give-up,
    and [e] is what that call raised; or no give-up happened, the run
    ends with the two branches of one of its splits, both of which
    returned, and [e] is the [TypeError] that adding the two returned
    values raised. *)
Theorem raised_error_origin {S : Type}
    (call_q : S -> string -> list value -> kwargs_t -> outcome * S)
    (func : S -> list value -> kwargs_t -> outcome * S)
    (name : string) (args : list value) (dims : list string) (chunk_dim : string)
    (mr : Z) (fuel : nat) (kwargs : kwargs_t) (r : Z) (s : S) :
  (forall res e,
     Retry2._attempt_q_call call_q fuel name args kwargs dims mr r s = Some res ->
     out res = Raise e ->
     gave_up_on res e \/
     (count is_giveup (evs res) = 0%nat /\ exn_cls e = TypeError /\
      merge_failed
        (fun fuel kw r s => Retry2._attempt_q_call call_q fuel name args kw dims mr r s)
        res e)) /\
  (forall res e,
     Retry._attempt_query func fuel args kwargs chunk_dim mr r s = Some res ->
     out res = Raise e ->
     gave_up_on res e \/
     (count is_giveup (evs res) = 0%nat /\ exn_cls e = TypeError /\
      merge_failed
        (fun fuel kw r s => Retry._attempt_query func fuel args kw chunk_dim mr r s)
        res e)).
Proof.
  split; intros res e Hrun He.
  - destruct (run_error_origin _ _ _ _ _ _ _ _ _ _ _ Hrun He) as [H|[Hg Hm]];
      [by left|right].
    split_and!; try done.
    destruct Hm as (? & ? & ? & ? & ? & ? & ? & ? & v1 & v2 & ? & _ & _ & _ & _ & Hadd & _).
    by eapply py_add_error.
  - rewrite (attempt_query_as_q_call func fuel name) in Hrun.
    destruct (run_error_origin _ _ _ _ _ _ _ _ _ _ _ Hrun He) as [H|[Hg Hm]];
      [by left|right].
    destruct Hm as (f & kw & d & items & r' & s1 & ra & rb & v1 & v2 & before
                    & E1 & O1 & E2 & O2 & Hadd & Hev & Hst).
    split_and!; [done|by eapply py_add_error|].
    exists f, kw, d, items, r', s1, ra, rb, v1, v2, before.
    rewrite !(attempt_query_as_q_call func f name). by split_and!.
Qed.

Lemma raised_error_origin_witness :
  exists res,
    Retry2._attempt_q_call silent_conn 2 "getData" [] pair_kwargs ["symbols"] 1 0 0%nat
      = Some res /\
    out res = Raise (operand_error VNone VNone) /\
    count is_giveup (evs res) = 0%nat /\
    merge_failed
      (fun fuel kw r s =>
         Retry2._attempt_q_call silent_conn fuel "getData" [] kw ["symbols"] 1 r s)
      res (operand_error VNone VNone).
Proof.
  eexists. split; [vm_compute; reflexivity|]. split; [reflexivity|].
  destruct (proj1 (raised_error_origin silent_conn (fun s a k => silent_conn s "" a k)
              "getData" [] ["symbols"] "symbols" 1 2 pair_kwargs 0 0%nat) _
              (operand_error VNone VNone) ltac:(vm_compute; reflexivity) eq_refl)
    as [(before & a & k & Hev)|(Hg & _ & Hm)]; [|by split].
  pose proof (last_app before [EvCall a k (Raise (operand_error VNone VNone)); EvGiveUp])
    as Hlast.
  rewrite <- Hev in Hlast. vm_compute in Hlast. discriminate Hlast.
Defined.

(** X3. Split and merge against a store that refuses long lists: if the
    call answers [map row l] for every list [l] of at most [cap >= 1]
    elements at the first chunk dimension and refuses longer ones with an
    oversized error, the executor returns [map row l] for a list of any
    length, without a retry; the chunks it got answered are within the
    cap and, in order, make up [l]. *)
Theorem capped_store_answer {S : Type}
    (call_q : S -> string -> list value -> kwargs_t -> outcome * S)
    (name : string) (args : list value) (d : string) (rest : list string)
    (mr : Z) (kw : kwargs_t) (cap : nat) (row : value -> value) (big : exn)
    (fuel : nat) (l : list value) (r : Z) (s : S) :
  (1 <= cap)%nat ->
  oversized big = true ->
  (forall s l, exists s',
     call_q s name args (<[d := VList l]> kw)
       = (if (cap <? length l)%nat then Raise big else Return (VList (map row l)), s')) ->
  (length l < fuel)%nat ->
  exists res,
    Retry2._attempt_q_call call_q fuel name args (<[d := VList l]> kw)
      (d :: rest) mr r s = Some res /\
    out res = Return (VList (map row l)) /\
    count is_retry (evs res) = 0%nat /\
    concat (answered_chunks d (evs res)) = l /\
    Forall (fun c => (length c <= cap)%nat) (answered_chunks d (evs res)).
Proof.
  intros Hcap Hbig Hstore Hfuel.
  by apply (capped_run call_q name args d rest mr kw cap row big).
Qed.

Lemma capped_store_answer_witness :
  (1 <= 3)%nat /\
  oversized (Exn ValueError "Query too big") = true /\
  (length Retry.symbols_list < 7)%nat /\
  exists res,
    Retry2._attempt_q_call Retry.run_query_conn 7 "getData" []
      (<["symbols" := VList Retry.symbols_list]> ∅) ["symbols"] 2 0 [] = Some res /\
    out res = Return (VList (map query_row Retry.symbols_list)).
Proof.
  split; [lia|]. split; [reflexivity|]. split; [vm_compute; lia|].
  destruct (capped_store_answer Retry.run_query_conn "getData" [] "symbols" [] 2 ∅ 3
              query_row (Exn ValueError "Query too big") 7 Retry.symbols_list 0 [])
    as (res & Hrun & Hout & _).
  - lia.
  - reflexivity.
  - intros s l. apply run_query_body_symbols.
  - vm_compute; lia.
  - exists res. by split.
Defined.

(** X4. [run_query] answers whatever it is asked: for every keyword
    arguments the decorated function returns one row per requested symbol,
    in order (the elements of the list under [symbols], the value itself
    when it is not a list, nothing when the key is absent), without a
    retry or a give-up, and no answered call carried more than three
    symbols. *)
Theorem run_query_answers_all (fuel : nat) (args : list value) (kwargs : kwargs_t)
    (printed : list (list value)) :
  (length (requested kwargs) < fuel)%nat ->
  exists res,
    Retry.run_query fuel args kwargs printed = Some res /\
    out res = Return (VList (map query_row (requested kwargs))) /\
    count is_retry (evs res) = 0%nat /\
    count is_giveup (evs res) = 0%nat /\
    Forall (fun c => (length c <= 3)%nat) (answered_chunks "symbols" (evs res)).
Proof.
  intros Hfuel. unfold Retry.run_query, Retry.wrapper.
  assert (forall res,
            Retry._attempt_query Retry.run_query_body fuel args kwargs "symbols" 2 0 printed
              = Some res ->
            out res = Return (VList (map query_row (requested kwargs))) ->
            count is_giveup (evs res) = 0%nat) as Hgive.
  { intros res Hrun Hout. rewrite (attempt_query_as_q_call _ fuel "") in Hrun.
    destruct (run_balanced _ _ _ _ _ _ _ _ _ _ Hrun) as [_ Ho].
    rewrite Hout in Ho. by destruct Ho. }
  unfold requested in *. destruct (kwargs !! "symbols") as [v|] eqn:E.
  - assert ((exists l, v = VList l) \/
            (forall l, v <> VList l)) as [[l ->]|Hv]
      by (destruct v; eauto; right; done).
    + rewrite <- (insert_id kwargs "symbols" (VList l) E) in Hgive |- *.
      rewrite (attempt_query_as_q_call _ fuel "") in Hgive |- *.
      destruct (capped_run (fun s _ a k => Retry.run_query_body s a k) "" args "symbols" []
                  2 kwargs 3 query_row (Exn ValueError "Query too big")
                  ltac:(lia) eq_refl
                  (fun s l => run_query_body_symbols s args kwargs l)
                  fuel l 0 printed Hfuel) as (res & Hrun & Hout & Hn & _ & Hall).
      exists res. split_and!; auto.
    + assert (match v with VList l => l | _ => [v] end = [v]) as Hreq
        by (destruct v; try done; by destruct (Hv l)).
      rewrite Hreq in Hfuel |- *. clear Hgive.
      destruct fuel as [|fuel]; [cbn in Hfuel; lia|].
      assert (Retry.run_query_body printed args kwargs
              = (Return (VList (map query_row [v])),
                 printed ++ [[v; Retry.kwargs_get kwargs "start_date";
                              Retry.kwargs_get kwargs "end_date";
                              Retry.kwargs_get kwargs "start_time";
                              Retry.kwargs_get kwargs "end_time"]])) as Hc.
      { unfold Retry.run_query_body. rewrite E. cbn [default from_option id].
        destruct v; try done. by destruct (Hv l). }
      cbn [Retry._attempt_query]. rewrite Hc.
      eexists. split; [reflexivity|]. cbn [out evs].
      split_and!; [done|done|done| ].
      assert (as_list v = None) as Hnl by (destruct v; try done; by destruct (Hv l)).
      cbn. rewrite E. cbn. rewrite Hnl. constructor.
  - destruct fuel as [|fuel]; [cbn in Hfuel; lia|].
    assert (Retry.run_query_body printed args kwargs
            = (Return (VList []),
               printed ++ [[VList []; Retry.kwargs_get kwargs "start_date";
                            Retry.kwargs_get kwargs "end_date";
                            Retry.kwargs_get kwargs "start_time";
                            Retry.kwargs_get kwargs "end_time"]])) as Hc.
    { unfold Retry.run_query_body. by rewrite E. }
    cbn [Retry._attempt_query]. rewrite Hc.
    eexists. split; [reflexivity|]. cbn [out evs].
    split_and!; [done|done|done| ].
    cbn. rewrite E. constructor.
Qed.

Lemma run_query_answers_all_witness :
  (length (requested Retry.example_kwargs) < 7)%nat /\
  exists res,
    Retry.run_query 7 [] Retry.example_kwargs [] = Some res /\
    out res = Return (VList (map query_row Retry.symbols_list)).
Proof.
  assert (length (requested Retry.example_kwargs) < 7)%nat as H by (vm_compute; lia).
  split; [exact H|].
  destruct (run_query_answers_all 7 [] Retry.example_kwargs [] H)
    as (res & Hrun & Hout & _).
  exists res. split; [exact Hrun|exact Hout].
Defined.

(** X5. A function the configuration does not mention (or mentions without
    [chunk_dims] and [max_retries]) is never split and gets three retries:
    if its call keeps failing, whatever the error text and the arguments,
    [q_func] makes four calls, sleeps three seconds and raises the error
    of the fourth call. *)
Theorem unconfigured_function_policy {S : Type}
    (connection : S -> string -> list value -> kwargs_t -> outcome * S)
    (config : gmap string QClient.entry) (func_name : string)
    (args : list value) (kwargs : kwargs_t) (s : S) (fuel : nat) :
  config !! func_name ≫= QClient.cfg_chunk_dims = None ->
  config !! func_name ≫= QClient.cfg_max_retries = None ->
  (forall s', exists e, (connection s' func_name args kwargs).1 = Raise e) ->
  (4 <= fuel)%nat ->
  exists res e s_last,
    QClient.__getattr__ connection config func_name fuel args kwargs s = Some res /\
    out res = Raise e /\
    connection s_last func_name args kwargs = (Raise e, st res) /\
    count is_call (evs res) = 4%nat /\
    count is_retry (evs res) = 3%nat /\
    count is_split (evs res) = 0%nat /\
    slept (evs res) = 3.
Proof.
  intros Hdims Hmr Hfail Hfuel. unfold QClient.__getattr__.
  assert (default [] (QClient.cfg_chunk_dims
            (default (QClient.Entry None None) (config !! func_name))) = []) as ->.
  { destruct (config !! func_name) as [en|]; cbn in *; [by rewrite Hdims|done]. }
  assert (default 3 (QClient.cfg_max_retries
            (default (QClient.Entry None None) (config !! func_name))) = 3) as ->.
  { destruct (config !! func_name) as [en|]; cbn in *; [by rewrite Hmr|done]. }
  destruct (exhaust_retries connection func_name args [] 3 kwargs) with
    (fuel := fuel) (r := 0) (s := s)
    as (res & e & s_last & Hrun & Ho & Hl & _ & _ & _ & Hc & Hr & Hs); [|lia|lia|].
  { intros s'. destruct (Hfail s') as [e He]. by exists e. }
  exists res, e, s_last.
  destruct (run_balanced _ _ _ _ _ _ _ _ _ _ Hrun) as [(_ & _ & Hsl & _) _].
  split_and!; auto; lia.
Qed.

Lemma unconfigured_function_policy_witness :
  QClient.q_config !! "getQuote" ≫= QClient.cfg_chunk_dims = None /\
  QClient.q_config !! "getQuote" ≫= QClient.cfg_max_retries = None /\
  (forall s' : nat, exists e, (closed_conn s' "getQuote" [] pair_kwargs).1 = Raise e) /\
  exists res,
    QClient.__getattr__ closed_conn QClient.q_config "getQuote" 4 [] pair_kwargs 0%nat
      = Some res /\
    count is_call (evs res) = 4%nat.
Proof.
  assert (QClient.q_config !! "getQuote" ≫= QClient.cfg_chunk_dims = None) as H1
    by (vm_compute; reflexivity).
  assert (QClient.q_config !! "getQuote" ≫= QClient.cfg_max_retries = None) as H2
    by (vm_compute; reflexivity).
  assert (forall s' : nat, exists e,
            (closed_conn s' "getQuote" [] pair_kwargs).1 = Raise e) as H3
    by (intros s'; eexists; reflexivity).
  split; [exact H1|]. split; [exact H2|]. split; [exact H3|].
  destruct (unconfigured_function_policy closed_conn QClient.q_config "getQuote" []
              pair_kwargs 0%nat 4 H1 H2 H3 ltac:(lia))
    as (res & e & s_last & Hrun & _ & _ & Hc & _).
  exists res. split; [exact Hrun|exact Hc].
Defined.

(** X6. Through the client, the dummy connection answers for every
    symbol: when [symbols] is the first chunk dimension configured for the
    function, no keyword is named [self] or [func_name], and neither
    [date_range] nor [time_range] is a list of more than three, [q_func]
    returns one result row per symbol, in order, for a list of symbols of
    any length, without a retry, and no answered call carried more than
    three symbols. *)
Theorem client_answers_every_symbol (fmt : value -> string)
    (self_first : kwargs_t -> bool)
    (config : gmap string QClient.entry) (func_name : string)
    (rest : list string) (mr : option Z) (args : list value) (kw : kwargs_t)
    (l : list value) (printed : list (string * list value * kwargs_t)) (fuel : nat) :
  config !! func_name = Some (QClient.Entry (Some ("symbols" :: rest)) mr) ->
  kw !! "self" = None -> kw !! "func_name" = None ->
  DummyKdbConnection.too_long kw "date_range" = false ->
  DummyKdbConnection.too_long kw "time_range" = false ->
  (length l < fuel)%nat ->
  exists res,
    QClient.__getattr__ (DummyKdbConnection.call_q fmt self_first) config func_name
      fuel args (<["symbols" := VList l]> kw) printed = Some res /\
    out res = Return (VList (map (DummyKdbConnection.result_row fmt func_name) l)) /\
    count is_retry (evs res) = 0%nat /\
    concat (answered_chunks "symbols" (evs res)) = l /\
    Forall (fun c => (length c <= 3)%nat) (answered_chunks "symbols" (evs res)).
Proof.
  intros Hcfg Hs Hf Hd Ht Hfuel. unfold QClient.__getattr__. rewrite Hcfg.
  cbn [default from_option id QClient.cfg_chunk_dims QClient.cfg_max_retries].
  apply (capped_run (DummyKdbConnection.call_q fmt self_first) func_name args
           "symbols" rest _ kw 3 (DummyKdbConnection.result_row fmt func_name)
           (Exn ValueError "Query too big")); [lia|done| |done].
  intros s l'. by apply dummy_call_q_symbols.
Qed.

Lemma client_answers_every_symbol_witness :
  let kw : kwargs_t := {["date_range" := VList [VStr "2025-01-01"; VStr "2025-01-31"]]} in
  QClient.q_config !! "getDataByDateRange"
    = Some (QClient.Entry (Some ("symbols" :: ["date_range"])) (Some 2)) /\
  kw !! "self" = None /\ kw !! "func_name" = None /\
  DummyKdbConnection.too_long kw "date_range" = false /\
  DummyKdbConnection.too_long kw "time_range" = false /\
  (length Retry.symbols_list < 7)%nat /\
  exists res,
    QClient.__getattr__ (DummyKdbConnection.call_q fmt_str (fun _ => true))
      QClient.q_config "getDataByDateRange" 7 []
      (<["symbols" := VList Retry.symbols_list]> kw) [] = Some res /\
    out res = Return (VList (map (DummyKdbConnection.result_row fmt_str
                                    "getDataByDateRange") Retry.symbols_list)).
Proof.
  cbv zeta.
  assert (QClient.q_config !! "getDataByDateRange"
    = Some (QClient.Entry (Some ("symbols" :: ["date_range"])) (Some 2))) as H1
    by (vm_compute; reflexivity).
  assert (({["date_range" := VList [VStr "2025-01-01"; VStr "2025-01-31"]]} : kwargs_t)
            !! "self" = None) as Hs by (vm_compute; reflexivity).
  assert (({["date_range" := VList [VStr "2025-01-01"; VStr "2025-01-31"]]} : kwargs_t)
            !! "func_name" = None) as Hf by (vm_compute; reflexivity).
  assert (DummyKdbConnection.too_long
            {["date_range" := VList [VStr "2025-01-01"; VStr "2025-01-31"]]}
            "date_range" = false) as H2 by (vm_compute; reflexivity).
  assert (DummyKdbConnection.too_long
            {["date_range" := VList [VStr "2025-01-01"; VStr "2025-01-31"]]}
            "time_range" = false) as H3 by (vm_compute; reflexivity).
  assert (length Retry.symbols_list < 7)%nat as H4 by (vm_compute; lia).
  split; [exact H1|]. split; [exact Hs|]. split; [exact Hf|].
  split; [exact H2|]. split; [exact H3|]. split; [exact H4|].
  destruct (client_answers_every_symbol fmt_str (fun _ => true) QClient.q_config
              "getDataByDateRange" ["date_range"] (Some 2) [] _ Retry.symbols_list [] 7
              H1 Hs Hf H2 H3 H4)
    as (res & Hrun & Hout & _).
  exists res. split; [exact Hrun|exact Hout].
Defined.

(** X7. An oversized dimension that is not declared chunkable cannot be
    worked around: if no keyword is named [self] or [func_name], and one
    of the keys the dummy connection checks holds a list of more than
    three and is not among the chunk dimensions, the executor finishes by
    raising "Query too big", and none of its calls was answered. *)
Theorem undeclared_dimension_fails (fmt : value -> string)
    (self_first : kwargs_t -> bool) (name : string)
    (args : list value) (dims : list string) (mr : Z) (key : string)
    (dr : list value) (fuel : nat) (kwargs : kwargs_t) (r : Z)
    (s : list (string * list value * kwargs_t)) :
  kwargs !! "self" = None -> kwargs !! "func_name" = None ->
  key ∈ DummyKdbConnection.checked_keys -> key ∉ dims ->
  kwargs !! key = Some (VList dr) -> (3 < length dr)%nat ->
  (fuel_bound dims kwargs mr r <= fuel)%nat ->
  exists res,
    Retry2._attempt_q_call (DummyKdbConnection.call_q fmt self_first) fuel name args
      kwargs dims mr r s = Some res /\
    out res = Raise (Exn ValueError "Query too big") /\
    count is_call (evs res) = count is_failed_call (evs res).
Proof.
  intros Hs Hf Hkey Hnot Hk Hlen Hfuel.
  destruct (attempt_terminates (DummyKdbConnection.call_q fmt self_first) name args
              dims mr fuel kwargs r s Hfuel) as [res Hrun].
  exists res. split; [done|]. by eapply dummy_never_answers.
Qed.

Lemma undeclared_dimension_fails_witness :
  let kwargs : kwargs_t :=
    <["date_range" := VList (map VStr ["d1"; "d2"; "d3"; "d4"])]> pair_kwargs in
  kwargs !! "self" = None /\ kwargs !! "func_name" = None /\
  "date_range" ∈ DummyKdbConnection.checked_keys /\
  ("date_range" ∉ ["symbols"]) /\
  kwargs !! "date_range" = Some (VList (map VStr ["d1"; "d2"; "d3"; "d4"])) /\
  (3 < length (map VStr ["d1"; "d2"; "d3"; "d4"]))%nat /\
  (fuel_bound ["symbols"] kwargs 3 0 <= 6)%nat /\
  exists res,
    Retry2._attempt_q_call (DummyKdbConnection.call_q fmt_str (fun _ => true)) 6
      "getDataByDate" [] kwargs ["symbols"] 3 0 [] = Some res /\
    out res = Raise (Exn ValueError "Query too big").
Proof.
  cbv zeta.
  assert ((<["date_range" := VList (map VStr ["d1"; "d2"; "d3"; "d4"])]> pair_kwargs)
            !! "self" = None) as Hs by (vm_compute; reflexivity).
  assert ((<["date_range" := VList (map VStr ["d1"; "d2"; "d3"; "d4"])]> pair_kwargs)
            !! "func_name" = None) as Hf by (vm_compute; reflexivity).
  assert ("date_range" ∈ DummyKdbConnection.checked_keys) as H1
    by (unfold DummyKdbConnection.checked_keys; set_solver).
  assert ("date_range" ∉ ["symbols"]) as H2
    by (intros Hin; apply list_elem_of_singleton in Hin; discriminate Hin).
  assert ((<["date_range" := VList (map VStr ["d1"; "d2"; "d3"; "d4"])]> pair_kwargs)
            !! "date_range" = Some (VList (map VStr ["d1"; "d2"; "d3"; "d4"]))) as H3
    by apply lookup_insert_eq.
  assert (3 < length (map VStr ["d1"; "d2"; "d3"; "d4"]))%nat as H4 by (cbn; lia).
  assert (fuel_bound ["symbols"]
            (<["date_range" := VList (map VStr ["d1"; "d2"; "d3"; "d4"])]> pair_kwargs)
            3 0 <= 6)%nat as H5 by (vm_compute; lia).
  split; [exact Hs|]. split; [exact Hf|].
  split; [exact H1|]. split; [exact H2|]. split; [exact H3|]. split; [exact H4|].
  split; [exact H5|].
  destruct (undeclared_dimension_fails fmt_str (fun _ => true) "getDataByDate" []
              ["symbols"] 3 "date_range" _ 6 _ 0 [] Hs Hf H1 H2 H3 H4 H5)
    as (res & Hrun & Hout & _).
  exists res. split; [exact Hrun|exact Hout].
Defined.

(** ** The frame transport, continued *)

Lemma byte_value_bound b : 0 <= Z.of_N (Byte.to_N b) < 256.
Proof. pose proof (Byte.to_N_bounded b). lia. Qed.

Lemma be_value_bound bs : 0 <= ArrowClient.be_value bs < 256 ^ Z.of_nat (length bs).
Proof.
  induction bs as [|b bs IH] using rev_ind; [cbn; lia|].
  rewrite be_value_snoc, length_app, Nat2Z.inj_add, Z.pow_add_r by lia.
  pose proof (byte_value_bound b). cbn [length]. change (256 ^ Z.of_nat 1) with 256. nia.
Qed.

Lemma be_bytes_be_value bs :
  ArrowClient.be_bytes (length bs) (ArrowClient.be_value bs) = bs.
Proof.
  induction bs as [|b bs IH] using rev_ind; [done|].
  rewrite length_app, Nat.add_1_r. cbn [ArrowClient.be_bytes].
  rewrite be_value_snoc. pose proof (byte_value_bound b) as Hb.
  replace ((ArrowClient.be_value bs * 256 + Z.of_N (Byte.to_N b)) / 256)
    with (ArrowClient.be_value bs)
    by (apply Z.div_unique with (r := Z.of_N (Byte.to_N b)); lia).
  rewrite IH. f_equal. f_equal. unfold ArrowClient.byte_of_Z.
  replace ((ArrowClient.be_value bs * 256 + Z.of_N (Byte.to_N b)) mod 256)
    with (Z.of_N (Byte.to_N b))
    by (apply Z.mod_unique with (q := ArrowClient.be_value bs); lia).
  by rewrite N2Z.id, Byte.of_to_N.
Qed.

(** X8. The frame read as a function of the byte stream: however the
    stream is cut into non-empty deliveries and whatever the positive
    buffer size, fewer than eight bytes give the "closed before header"
    error; otherwise the first eight bytes give a length [L] below 2^64,
    and the read returns the next [L] bytes, leaving the rest unread, or
    fails with "closed before full data" when fewer than [L] follow. *)
Theorem frame_read_by_stream (frags : ArrowClient.socket) (buffer_size : Z)
    (fuel : nat) :
  Forall (fun d => d <> []) frags -> 0 < buffer_size -> (8 <= fuel)%nat ->
  let stream := concat frags in
  let L := ArrowClient.be_value (take 8 stream) in
  ((length stream < 8)%nat ->
     ArrowClient.fetch_frame fuel buffer_size frags
       = Some (ArrowClient.Failed ArrowClient.header_closed [])) /\
  ((8 <= length stream)%nat -> L <= Z.of_nat fuel ->
     0 <= L < 2 ^ 64 /\
     (L <= Z.of_nat (length stream - 8) ->
        exists rest,
          ArrowClient.fetch_frame fuel buffer_size frags
            = Some (ArrowClient.Bytes (take (Z.to_nat L) (drop 8 stream)) rest) /\
          concat rest = drop (8 + Z.to_nat L) stream) /\
     (Z.of_nat (length stream - 8) < L ->
        ArrowClient.fetch_frame fuel buffer_size frags
          = Some (ArrowClient.Failed ArrowClient.data_closed []))).
Proof.
  intros Hfr Hbs Hf8. cbv zeta.
  pose proof (read_header_spec fuel [] frags Hfr ltac:(cbn; lia) ltac:(cbn; lia)) as Hh.
  cbn [length app] in Hh. rewrite Nat.sub_0_r in Hh.
  unfold ArrowClient.fetch_frame. split.
  - intros Hshort. rewrite decide_False in Hh by lia. by rewrite Hh.
  - intros Hlong HL. rewrite decide_True in Hh by lia.
    destruct Hh as (rest & -> & Hrest & Hne).
    assert (length (take 8 (concat frags)) = 8%nat) as Hlen8
      by (rewrite length_take; lia).
    pose proof (be_value_bound (take 8 (concat frags))) as Hb. rewrite Hlen8 in Hb.
    change (256 ^ Z.of_nat 8) with (2 ^ 64) in Hb.
    split; [exact Hb|].
    unfold ArrowClient.unpack_Q. rewrite Hlen8. cbn [Nat.eqb].
    pose proof (read_payload_spec fuel buffer_size []
                  (ArrowClient.be_value (take 8 (concat frags))) rest Hbs Hne
                  ltac:(lia) ltac:(lia)) as Hp.
    rewrite Hrest, length_drop in Hp. split.
    + intros Hle. rewrite decide_True in Hp by lia.
      destruct Hp as (rest' & -> & Hrest' & _). exists rest'. split; [done|].
      by rewrite Hrest', drop_drop.
    + intros Hgt. by rewrite decide_False in Hp by lia.
Qed.

Lemma frame_read_by_stream_witness :
  let frags : ArrowClient.socket := [[x00; x00; x00]; [x00; x00; x00; x00; x02; x41]] in
  Forall (fun d : list byte => d <> []) frags /\ 0 < 4 /\ (8 <= 8)%nat /\
  (8 <= length (concat frags))%nat /\
  ArrowClient.be_value (take 8 (concat frags)) <= Z.of_nat 8 /\
  Z.of_nat (length (concat frags) - 8) < ArrowClient.be_value (take 8 (concat frags)) /\
  ArrowClient.fetch_frame 8 4 frags
    = Some (ArrowClient.Failed ArrowClient.data_closed []).
Proof.
  cbv zeta.
  assert (Forall (fun d : list byte => d <> [])
            [[x00; x00; x00]; [x00; x00; x00; x00; x02; x41]]) as H1
    by (repeat constructor; discriminate).
  split; [exact H1|]. split; [lia|]. split; [lia|].
  split; [cbn; lia|]. split; [vm_compute; discriminate|]. split; [vm_compute; reflexivity|].
  refine (proj2 (proj2 (proj2 (frame_read_by_stream _ 4 8 H1 ltac:(lia) ltac:(lia))
                          _ _)) _).
  - cbn; lia.
  - vm_compute; discriminate.
  - vm_compute; reflexivity.
Defined.

(** X9. A buffer size that is not positive: once the header is read and
    announces a non-empty payload, a buffer size of 0 makes the read fail
    with "closed before full data" although the peer has not closed, and a
    negative one makes it fail with the [ValueError] of [recv]; in both
    cases everything after the header is left unread. *)
Theorem nonpositive_buffer_size (frags : ArrowClient.socket) (buffer_size : Z)
    (fuel : nat) :
  Forall (fun d => d <> []) frags -> (8 <= fuel)%nat ->
  (8 <= length (concat frags))%nat ->
  0 < ArrowClient.be_value (take 8 (concat frags)) ->
  buffer_size <= 0 ->
  exists rest,
    ArrowClient.fetch_frame fuel buffer_size frags
      = Some (ArrowClient.Failed
                (if buffer_size =? 0 then ArrowClient.data_closed
                 else Exn ValueError "negative buffersize in recv") rest) /\
    concat rest = drop 8 (concat frags).
Proof.
  intros Hfr Hf8 Hlong HL Hbs.
  pose proof (read_header_spec fuel [] frags Hfr ltac:(cbn; lia) ltac:(cbn; lia)) as Hh.
  cbn [length app] in Hh. rewrite Nat.sub_0_r in Hh.
  rewrite decide_True in Hh by lia. destruct Hh as (rest & Hrd & Hrest & Hne).
  unfold ArrowClient.fetch_frame. rewrite Hrd.
  unfold ArrowClient.unpack_Q. rewrite length_take.
  replace (8 `min` length (concat frags))%nat with 8%nat by lia. cbn [Nat.eqb].
  destruct fuel as [|fuel]; [lia|]. cbn [ArrowClient.read_payload].
  assert ((0 <? ArrowClient.be_value (take 8 (concat frags))) = true) as -> by lia.
  unfold ArrowClient.recv.
  replace (Z.min buffer_size (ArrowClient.be_value (take 8 (concat frags))))
    with buffer_size by lia.
  destruct (buffer_size =? 0) eqn:E.
  - apply Z.eqb_eq in E as ->. cbn [Z.ltb Z.compare Z.to_nat].
    destruct rest as [|d rest]; [by exists []|].
    apply Forall_cons in Hne as [Hd _].
    destruct d as [|b d]; [done|]. cbn.
    exists ((b :: d) :: rest). by rewrite <- Hrest.
  - apply Z.eqb_neq in E. assert ((buffer_size <? 0) = true) as -> by lia.
    by exists rest.
Qed.

Lemma nonpositive_buffer_size_witness :
  let frags : ArrowClient.socket := [[x00; x00; x00; x00; x00; x00; x00; x02; x41; x42]] in
  Forall (fun d : list byte => d <> []) frags /\ (8 <= 8)%nat /\
  (8 <= length (concat frags))%nat /\
  0 < ArrowClient.be_value (take 8 (concat frags)) /\ 0 <= 0 /\
  exists rest,
    ArrowClient.fetch_frame 8 0 frags
      = Some (ArrowClient.Failed ArrowClient.data_closed rest) /\
    concat rest = [x41; x42].
Proof.
  cbv zeta.
  assert (Forall (fun d : list byte => d <> [])
            [[x00; x00; x00; x00; x00; x00; x00; x02; x41; x42]]) as H1
    by (repeat constructor; discriminate).
  split; [exact H1|]. split; [lia|]. split; [cbn; lia|].
  split; [vm_compute; reflexivity|]. split; [lia|].
  exact (nonpositive_buffer_size _ 0 8 H1 ltac:(lia) ltac:(cbn; lia)
           ltac:(vm_compute; reflexivity) ltac:(lia)).
Defined.

(** X10. The header decoding: only an eight-byte header decodes, its value
    lies in [0, 2^64), and writing that value back as eight big-endian
    bytes gives the header again, so two different headers never announce
    the same length. *)
Theorem header_value_range (header : list byte) (L : Z) :
  ArrowClient.unpack_Q header = Some L ->
  length header = 8%nat /\ 0 <= L < 2 ^ 64 /\ ArrowClient.pack_Q L = header /\
  (forall header', ArrowClient.unpack_Q header' = Some L -> header' = header).
Proof.
  assert (forall h v, ArrowClient.unpack_Q h = Some v ->
            length h = 8%nat /\ 0 <= v < 2 ^ 64 /\ ArrowClient.pack_Q v = h) as Hone.
  { intros h v. unfold ArrowClient.unpack_Q.
    destruct (length h =? 8)%nat eqn:E; [|discriminate].
    apply Nat.eqb_eq in E. intros [= <-].
    pose proof (be_value_bound h) as Hb. rewrite E in Hb.
    change (256 ^ Z.of_nat 8) with (2 ^ 64) in Hb.
    split_and!; [done|lia|lia|].
    unfold ArrowClient.pack_Q. rewrite <- E. apply be_bytes_be_value. }
  intros H. destruct (Hone _ _ H) as (H8 & Hr & Hp).
  split; [exact H8|]. split; [exact Hr|]. split; [exact Hp|].
  intros header' H'. destruct (Hone _ _ H') as (_ & _ & Hp'). congruence.
Qed.

Lemma header_value_range_witness :
  ArrowClient.unpack_Q [x00; x00; x00; x00; x00; x00; x01; x02] = Some 258 /\
  ArrowClient.pack_Q 258 = [x00; x00; x00; x00; x00; x00; x01; x02].
Proof.
  assert (ArrowClient.unpack_Q [x00; x00; x00; x00; x00; x00; x01; x02] = Some 258) as H
    by reflexivity.
  split; [exact H|].
  exact (proj1 (proj2 (proj2 (header_value_range _ _ H)))).
Defined.

(** ** The query builder *)

Section Builder.
Import QueryBuilder.

Lemma append_String c a b :
  String.append (String c a) b = String c (String.append a b).
Proof. reflexivity. Qed.

Lemma append_nil_r s : String.append s EmptyString = s.
Proof. induction s as [|c s IH]; [done|]. by rewrite append_String, IH. Qed.

Lemma append_assoc a b c :
  String.append (String.append a b) c = String.append a (String.append b c).
Proof.
  induction a as [|x a IH]; [done|]. rewrite ?append_String. cbn.
  rewrite ?append_String. by rewrite IH.
Qed.

Lemma length_append a b :
  String.length (String.append a b) = (String.length a + String.length b)%nat.
Proof.
  induction a as [|x a IH]; [done|]. rewrite ?append_String. cbn.
  rewrite ?append_String. by rewrite IH.
Qed.

Lemma list_ascii_of_string_append a b :
  list_ascii_of_string (String.append a b)
    = list_ascii_of_string a ++ list_ascii_of_string b.
Proof.
  induction a as [|x a IH]; [done|]. rewrite ?append_String. cbn.
  rewrite ?append_String. by rewrite IH.
Qed.

Lemma string_of_list_ascii_app a b :
  string_of_list_ascii (a ++ b)
    = String.append (string_of_list_ascii a) (string_of_list_ascii b).
Proof.
  induction a as [|x a IH]; [done|]. rewrite ?append_String. cbn.
  rewrite ?append_String. by rewrite IH.
Qed.

Lemma length_list_ascii s : length (list_ascii_of_string s) = String.length s.
Proof. induction s as [|c s IH]; simpl; [done|]. by rewrite IH. Qed.

(** *** Escaping *)

Lemma escape_head s c rest : escape_quotes s = String c rest -> c <> dquote.
Proof.
  destruct s as [|x s]; cbn; [discriminate|].
  destruct (Ascii.eqb x dquote) eqn:E.
  - intros [= <- _]. discriminate.
  - intros [= <- _]. by apply Ascii.eqb_neq.
Qed.

Lemma unescape_escape s : unescape_quotes (escape_quotes s) = s.
Proof.
  induction s as [|c s IH]; [done|]. cbn [escape_quotes].
  destruct (Ascii.eqb c dquote) eqn:E.
  - apply Ascii.eqb_eq in E as ->. cbn. by rewrite IH.
  - cbn [unescape_quotes]. destruct (escape_quotes s) as [|c' s''] eqn:Es.
    + destruct s as [|x s]; [done|]. cbn in Es. by destruct (Ascii.eqb x dquote).
    + pose proof (escape_head _ _ _ Es) as Hne. apply Ascii.eqb_neq in Hne.
      rewrite Hne, andb_false_r. by rewrite IH.
Qed.

Lemma length_escape s :
  String.length (escape_quotes s) = (String.length s + count_quotes s)%nat.
Proof.
  induction s as [|c s IH]; [done|]. cbn.
  destruct (Ascii.eqb c dquote); cbn; rewrite IH; lia.
Qed.

Lemma escape_quote_guarded s pre post :
  escape_quotes s = String.append pre (String dquote post) ->
  exists pre', pre = String.append pre' (String backslash EmptyString).
Proof.
  revert pre. induction s as [|c s IH]; intros pre; cbn [escape_quotes].
  - destruct pre; discriminate.
  - destruct (Ascii.eqb c dquote) eqn:E.
    + destruct pre as [|x [|y pre]]; cbn.
      * discriminate.
      * intros [= <- _]. by exists EmptyString.
      * intros [= <- <- H]. destruct (IH _ H) as [pre' ->].
        by exists (String backslash (String dquote pre')).
    + apply Ascii.eqb_neq in E. destruct pre as [|x pre]; cbn.
      * intros [= H _]. done.
      * intros [= <- H]. destruct (IH _ H) as [pre' ->]. by exists (String c pre').
Qed.

(** *** Joining *)

Lemma join_cons sep x ls :
  ls <> [] -> join sep (x :: ls) = String.append x (String.append sep (join sep ls)).
Proof. by destruct ls. Qed.

Lemma join_app sep a b :
  a <> [] -> b <> [] ->
  join sep (a ++ b)
    = String.append (join sep a) (String.append sep (join sep b)).
Proof.
  intros Ha Hb. induction a as [|x a IH]; [done|].
  destruct a as [|y a].
  - cbn [app]. by rewrite join_cons.
  - rewrite <- app_comm_cons, join_cons by done.
    rewrite IH by done. rewrite (join_cons _ x (y :: a)) by done.
    by rewrite !append_assoc.
Qed.

Lemma join_concat sep (xss : list (list string)) :
  Forall (fun xs => xs <> []) xss ->
  join sep (map (join sep) xss) = join sep (concat xss).
Proof.
  induction 1 as [|xs xss Hxs Hall IH]; [done|].
  destruct xss as [|ys xss].
  - cbn. by rewrite app_nil_r.
  - change (map (join sep) (xs :: ys :: xss))
      with (join sep xs :: map (join sep) (ys :: xss)).
    rewrite join_cons by done. rewrite IH.
    change (concat (xs :: ys :: xss)) with (xs ++ concat (ys :: xss)).
    rewrite join_app; [done|done|].
    apply Forall_cons in Hall as [Hys _]. cbn. destruct ys; [done|]. done.
Qed.

(** *** Digits *)

Lemma length_digits w n : String.length (digits w n) = w.
Proof.
  revert n. induction w as [|w IH]; intros n; [done|].
  cbn [digits]. rewrite length_append, IH. cbn. lia.
Qed.

Lemma digits_split a b n :
  digits (a + b) n
    = String.append (digits a (n / 10 ^ N.of_nat b)%N) (digits b n).
Proof.
  revert n. induction b as [|b IH]; intros n.
  - rewrite Nat.add_0_r. cbn [N.of_nat]. rewrite N.pow_0_r, N.div_1_r.
    cbn [digits]. by rewrite append_nil_r.
  - rewrite Nat.add_succ_r. cbn [digits]. rewrite IH, append_assoc.
    rewrite Nat2N.inj_succ, N.pow_succ_r', N.Div0.div_div. done.
Qed.

Lemma drop_last_append a b :
  drop_last (String.length b) (String.append a b) = a.
Proof.
  unfold drop_last. rewrite list_ascii_of_string_append, length_app, !length_list_ascii.
  replace (String.length a + String.length b - String.length b)%nat
    with (length (list_ascii_of_string a)) by (rewrite length_list_ascii; lia).
  by rewrite take_app_length, string_of_list_ascii_of_string.
Qed.
End Builder.

(** X11. Escaping of string parameters: dropping the backslash in front of
    each double quote reads the escaped text back, so two different
    strings never render alike; the rendering grows by one character per
    double quote plus the two enclosing quotes; and every double quote
    inside the enclosing ones has a backslash right before it. *)
Theorem string_escaping (s : string) :
  QueryBuilder.qrepr (QueryBuilder.QStr s)
    = QueryBuilder.quoted (QueryBuilder.escape_quotes s) /\
  QueryBuilder.unescape_quotes (QueryBuilder.escape_quotes s) = s /\
  (forall s', QueryBuilder.qrepr (QueryBuilder.QStr s')
                = QueryBuilder.qrepr (QueryBuilder.QStr s) -> s' = s) /\
  String.length (QueryBuilder.qrepr (QueryBuilder.QStr s))
    = (String.length s + QueryBuilder.count_quotes s + 2)%nat /\
  (forall pre post,
     QueryBuilder.escape_quotes s
       = String.append pre (String QueryBuilder.dquote post) ->
     exists pre', pre = String.append pre' (String QueryBuilder.backslash EmptyString)).
Proof.
  split_and!.
  - done.
  - apply unescape_escape.
  - intros s' H. cbn in H. unfold QueryBuilder.quoted in H. injection H as H.
    assert (QueryBuilder.escape_quotes s' = QueryBuilder.escape_quotes s) as He.
    { rewrite <- (append_nil_r (QueryBuilder.escape_quotes s')),
              <- (append_nil_r (QueryBuilder.escape_quotes s)).
      apply (f_equal (QueryBuilder.drop_last 1)) in H.
      change 1%nat with (String.length (String QueryBuilder.dquote EmptyString)) in H.
      rewrite !drop_last_append in H. by rewrite !append_nil_r. }
    by rewrite <- (unescape_escape s'), He, unescape_escape.
  - cbn. unfold QueryBuilder.quoted. cbn. rewrite length_append, length_escape. cbn. lia.
  - apply escape_quote_guarded.
Qed.

(** X12. Nesting is not kept: a list of non-empty lists renders exactly
    like the one flat list of all their elements, and a tuple renders like
    the list of the same elements. *)
Theorem nested_lists_flatten (ls : list (list QueryBuilder.qobj)) :
  Forall (fun l => l <> []) ls ->
  QueryBuilder.qrepr (QueryBuilder.QList (map QueryBuilder.QList ls))
    = QueryBuilder.qrepr (QueryBuilder.QList (concat ls)) /\
  QueryBuilder.qrepr (QueryBuilder.QList (map QueryBuilder.QTuple ls))
    = QueryBuilder.qrepr (QueryBuilder.QTuple (concat ls)).
Proof.
  intros Hne.
  assert (QueryBuilder.join " " (map (QueryBuilder.join " ")
                                   (map (map QueryBuilder.qrepr) ls))
          = QueryBuilder.join " " (map QueryBuilder.qrepr (concat ls))) as H.
  { rewrite join_concat.
    - f_equal. induction ls as [|l ls IH]; [done|].
      apply Forall_cons in Hne as [_ Hne]. cbn. by rewrite map_app, IH.
    - apply Forall_fmap. eapply Forall_impl; [exact Hne|].
      intros l Hl. cbn. by destruct l. }
  split; cbn [QueryBuilder.qrepr]; rewrite <- H; f_equal;
    rewrite !map_map; by apply map_ext.
Qed.

Lemma nested_lists_flatten_witness :
  let a := QueryBuilder.QInt 1 in
  let b := QueryBuilder.QSymbol "x" in
  Forall (fun l : list QueryBuilder.qobj => l <> []) [[a]; [b; a]] /\
  QueryBuilder.qrepr (QueryBuilder.QList (map QueryBuilder.QList [[a]; [b; a]]))
    = QueryBuilder.qrepr (QueryBuilder.QList [a; b; a]).
Proof.
  cbv zeta.
  assert (Forall (fun l : list QueryBuilder.qobj => l <> [])
            [[QueryBuilder.QInt 1]; [QueryBuilder.QSymbol "x"; QueryBuilder.QInt 1]]) as H
    by (repeat constructor; discriminate).
  split; [exact H|].
  exact (proj1 (nested_lists_flatten _ H)).
Defined.

(** X13. A time is rendered to the millisecond, cut and not rounded: for
    fields in the ranges of [datetime.time] the text is
    [hh:mm:ss.mmm] between double quotes, fourteen characters, where
    [mmm] is the microsecond field divided by 1000, remainder dropped; two
    times that differ only below the millisecond render alike. *)
Theorem time_cut_to_milliseconds (hour minute second microsecond : N) :
  (hour < 24)%N -> (minute < 60)%N -> (second < 60)%N ->
  (microsecond < 1000000)%N ->
  QueryBuilder.qrepr (QueryBuilder.QTime hour minute second microsecond)
    = QueryBuilder.quoted
        (String.append (QueryBuilder.digits 2 hour)
           (String ":" (String.append (QueryBuilder.digits 2 minute)
              (String ":" (String.append (QueryBuilder.digits 2 second)
                 (String "." (QueryBuilder.digits 3 (microsecond / 1000)%N))))))) /\
  String.length (QueryBuilder.qrepr (QueryBuilder.QTime hour minute second microsecond))
    = 14%nat /\
  QueryBuilder.qrepr (QueryBuilder.QTime hour minute second microsecond)
    = QueryBuilder.qrepr
        (QueryBuilder.QTime hour minute second (1000 * (microsecond / 1000))%N).
Proof.
  intros _ _ _ _.
  assert (forall us,
    QueryBuilder.qrepr (QueryBuilder.QTime hour minute second us)
    = QueryBuilder.quoted
        (String.append (QueryBuilder.digits 2 hour)
           (String ":" (String.append (QueryBuilder.digits 2 minute)
              (String ":" (String.append (QueryBuilder.digits 2 second)
                 (String "." (QueryBuilder.digits 3 (us / 1000)%N)))))))) as Hfmt.
  { intros us. cbn [QueryBuilder.qrepr]. f_equal. unfold QueryBuilder.strftime_time.
    change 6%nat with (3 + 3)%nat. rewrite (digits_split 3 3 us).
    change (10 ^ N.of_nat 3)%N with 1000%N.
    set (A := QueryBuilder.digits 2 hour). set (B := QueryBuilder.digits 2 minute).
    set (C := QueryBuilder.digits 2 second).
    set (M := QueryBuilder.digits 3 (us / 1000)%N).
    set (U := QueryBuilder.digits 3 us).
    replace (String.append A (String ":" (String.append B (String ":"
               (String.append C (String "." (String.append M U)))))))
      with (String.append
              (String.append A (String ":" (String.append B (String ":"
                 (String.append C (String "." M)))))) U).
    - replace 3%nat with (String.length U) at 1 by apply length_digits.
      apply drop_last_append.
    - rewrite append_assoc, append_String, append_assoc, append_String.
      by rewrite append_assoc, append_String. }
  split_and!.
  - apply Hfmt.
  - rewrite Hfmt. unfold QueryBuilder.quoted. cbn [String.length].
    rewrite !length_append. cbn [String.length].
    rewrite !length_append. cbn [String.length].
    rewrite !length_append. cbn [String.length].
    rewrite !length_digits. lia.
  - rewrite !Hfmt. do 8 f_equal.
    by rewrite N.mul_comm, N.div_mul.
Qed.

Lemma time_cut_to_milliseconds_witness :
  (12 < 24)%N /\ (34 < 60)%N /\ (56 < 60)%N /\ (789999 < 1000000)%N /\
  QueryBuilder.qrepr (QueryBuilder.QTime 12 34 56 789999)
    = QueryBuilder.qrepr (QueryBuilder.QTime 12 34 56 (1000 * (789999 / 1000))%N).
Proof.
  split; [lia|]. split; [lia|]. split; [lia|]. split; [lia|].
  exact (proj2 (proj2 (time_cut_to_milliseconds 12 34 56 789999
                         ltac:(lia) ltac:(lia) ltac:(lia) ltac:(lia)))).
Defined.

(** ** The cost of a run on one chunk dimension *)

Lemma single_dim_cost {S : Type}
    (call_q : S -> string -> list value -> kwargs_t -> outcome * S)
    name args d mr fuel kwargs r s res :
  Retry2._attempt_q_call call_q fuel name args kwargs [d] mr r s = Some res ->
  (count is_split (evs res) <= dim_len kwargs d - 1)%nat /\
  Z.of_nat (count is_retry (evs res))
    <= Z.of_nat (1 `max` dim_len kwargs d) * Z.max 0 (mr - r).
Proof.
  revert fuel kwargs r s res.
  assert (forall kwargs e d' items,
            Retry2.find_split [d] kwargs e = Some (d', items) ->
            d' = d /\ dim_len kwargs d = length items /\
            dim_len (split_kwargs kwargs d' items).1 d = length (halves items).1 /\
            dim_len (split_kwargs kwargs d' items).2 d = length (halves items).2 /\
            (length (halves items).1 + length (halves items).2 = length items)%nat /\
            (0 < length (halves items).1)%nat /\ (0 < length (halves items).2)%nat)
    as Hsplit.
  { intros kwargs e d' items F.
    destruct (find_split_in [d] _ _ _ _ F) as (Hin & Hd & Hlen & _).
    apply list_elem_of_singleton in Hin as ->.
    destruct (halves_shorter items Hlen) as [H1 H2].
    pose proof (halves_app items) as Happ. apply (f_equal length) in Happ.
    rewrite length_app in Happ.
    unfold split_kwargs, dim_len. cbn [fst snd]. rewrite Hd, !lookup_insert_eq.
    split_and!; auto; lia. }
  apply (attempt_ind call_q name args [d] mr
           (fun kwargs r _ res =>
              (count is_split (evs res) <= dim_len kwargs d - 1)%nat /\
              Z.of_nat (count is_retry (evs res))
                <= Z.of_nat (1 `max` dim_len kwargs d) * Z.max 0 (mr - r)));
    cbn [emit evs].
  - intros kwargs r s v s1 _. cbn. split; nia.
  - intros kwargs r s e s1 _ _ _. cbn. split; nia.
  - intros kwargs r s e s1 r1 _ _ L [IH1 IH2].
    rewrite !count_app. cbn. split; [lia|]. nia.
  - intros kwargs r s e s1 d' items r1 e1 _ F [IH1 IH2] _.
    destruct (Hsplit _ _ _ _ F) as (-> & Hn & Hn1 & Hn2 & Hsum & Hp1 & Hp2).
    rewrite Hn1 in IH1, IH2. rewrite Hn.
    rewrite !count_app. cbn. split; [lia|]. nia.
  - intros kwargs r s e s1 d' items r1 v1 r2 _ F [IH1 IH2] _ [IH3 IH4].
    destruct (Hsplit _ _ _ _ F) as (-> & Hn & Hn1 & Hn2 & Hsum & Hp1 & Hp2).
    rewrite Hn1 in IH1, IH2. rewrite Hn2 in IH3, IH4. rewrite Hn.
    rewrite !count_app. cbn. split; [lia|]. nia.
Qed.

(** X14. What a run on one chunk dimension can cost, for both executors:
    with [n] elements under the chunk dimension (0 when it is absent or
    not a list) a run makes at most [n - 1] splits and at most
    [max(1, n) * max(0, max_retries - retries)] retries, sleeping one
    second for each, hence at most
    [2 * n - 1 + max(1, n) * (max_retries - retries)] calls when
    [n >= 1] and the budget is not negative. *)
Theorem run_cost_bound {S : Type}
    (call_q : S -> string -> list value -> kwargs_t -> outcome * S)
    (func : S -> list value -> kwargs_t -> outcome * S)
    (name : string) (args : list value) (d : string) (mr : Z)
    (fuel : nat) (kwargs : kwargs_t) (r : Z) (s : S) :
  let n := dim_len kwargs d in
  let bounded (res : run S) :=
    (count is_split (evs res) <= n - 1)%nat /\
    Z.of_nat (count is_retry (evs res)) <= Z.of_nat (1 `max` n) * Z.max 0 (mr - r) /\
    slept (evs res) <= Z.of_nat (1 `max` n) * Z.max 0 (mr - r) /\
    ((1 <= n)%nat -> r <= mr ->
     Z.of_nat (count is_call (evs res))
       <= 2 * Z.of_nat n - 1 + Z.of_nat n * (mr - r)) in
  (forall res,
     Retry2._attempt_q_call call_q fuel name args kwargs [d] mr r s = Some res ->
     bounded res) /\
  (forall res,
     Retry._attempt_query func fuel args kwargs d mr r s = Some res ->
     bounded res).
Proof.
  cbv zeta.
  assert (forall (c : S -> string -> list value -> kwargs_t -> outcome * S) res,
            Retry2._attempt_q_call c fuel name args kwargs [d] mr r s = Some res ->
            (count is_split (evs res) <= dim_len kwargs d - 1)%nat /\
            Z.of_nat (count is_retry (evs res))
              <= Z.of_nat (1 `max` dim_len kwargs d) * Z.max 0 (mr - r) /\
            slept (evs res)
              <= Z.of_nat (1 `max` dim_len kwargs d) * Z.max 0 (mr - r) /\
            ((1 <= dim_len kwargs d)%nat -> r <= mr ->
             Z.of_nat (count is_call (evs res))
               <= 2 * Z.of_nat (dim_len kwargs d) - 1
                  + Z.of_nat (dim_len kwargs d) * (mr - r))) as Hgen.
  { intros c res Hrun.
    destruct (single_dim_cost _ _ _ _ _ _ _ _ _ _ Hrun) as [Hs Hr].
    destruct (run_balanced _ _ _ _ _ _ _ _ _ _ Hrun) as [(_ & _ & Hsl & Hc) _].
    split_and!; [done|done|lia|].
    intros Hn Hle. nia. }
  split; intros res Hrun.
  - by apply (Hgen call_q).
  - rewrite (attempt_query_as_q_call func fuel name) in Hrun.
    by apply (Hgen (fun s _ a k => func s a k)).
Qed.

Lemma run_cost_bound_witness :
  exists res,
    Retry._attempt_query Retry.run_query_body 2 [] Retry.example_kwargs "symbols" 2 0 []
      = Some res /\
    (count is_split (evs res) <= dim_len Retry.example_kwargs "symbols" - 1)%nat.
Proof.
  eexists. split; [vm_compute; reflexivity|].
  refine (proj1 (proj2 (run_cost_bound Retry.run_query_conn Retry.run_query_body
            "getData" [] "symbols" 2 2 Retry.example_kwargs 0 []) _ _)).
  vm_compute; reflexivity.
Defined.
